(** * The STIX extraction and merge engine of [lib/stix.py]

    A shallow embedding of the loader ([load_stix_data]), the relationship
    resolver ([get_related_objects]), the per-group extractor
    ([extract_all_apts]), the streaming ingestor
    ([load_stix_objects_streaming]) and the merger
    ([merge_all_stix_files]), followed by the properties of the
    specification that concern them, and by further properties of these
    functions, of the downloader ([download_all]) and of the command line
    ([main]).

    The libraries the engine calls ([json], [ijson], [stix2]) and the file
    system are not part of the repository: their answers are inputs of the
    model ([read_result], [generator], the section variables [parse] and
    [Bundle]). *)

From Stdlib Require Import QArith Qcanon Ascii.
From stdpp Require Import base option list gmap sets strings numbers countable.

Close Scope Qc_scope.
Close Scope Q_scope.
Open Scope string_scope.
Open Scope list_scope.
Open Scope nat_scope.

#[local] Set Warnings "-register-all".

(** ** JSON values as Python sees them *)

(** What [json.load] and [ijson] hand to the program: [None], [bool],
    numbers ([int], [float], [Decimal]: their rational value), [str], [list]
    and [dict] (an insertion-ordered table with distinct keys). *)
Inductive json : Type :=
  | JNull
  | JBool (b : bool)
  | JNum (q : Qc)
  | JStr (s : string)
  | JArr (items : list json)
  | JObj (fields : list (string * json)).

(** [d.get(k)]: the value stored under [k], if any. *)
Fixpoint dict_get (fields : list (string * json)) (k : string) : option json :=
  match fields with
  | [] => None
  | (k', v) :: rest => if decide (k' = k) then Some v else dict_get rest k
  end.

(** Python truth value, as tested by [if obj_id and ...]. *)
Definition truthy (v : json) : bool :=
  match v with
  | JNull => false
  | JBool b => b
  | JNum q => bool_decide (q ≠ 0%Qc)
  | JStr s => bool_decide (s ≠ "")
  | JArr items => bool_decide (items ≠ [])
  | JObj fields => bool_decide (fields ≠ [])
  end.

(** The hashable values, up to Python equality: [True == 1] and
    [False == 0] hash alike, a [str] equals only the same [str], [None]
    only [None]. *)
Inductive hkey : Type :=
  | HNone
  | HNum (q : Qc)
  | HStr (s : string).

Global Instance hkey_eq_dec : EqDecision hkey.
Proof. solve_decision. Defined.

Global Instance hkey_countable : Countable hkey.
Proof.
  refine (inj_countable'
    (λ k, match k with
          | HNone => inl ()
          | HNum q => inr (inl q)
          | HStr s => inr (inr s)
          end)
    (λ x, match x with
          | inl _ => HNone
          | inr (inl q) => HNum q
          | inr (inr s) => HStr s
          end) _).
  by intros [].
Defined.

(** [hash(v)]: [None] stands for [TypeError: unhashable type]. *)
Definition py_hash (v : json) : option hkey :=
  match v with
  | JNull => Some HNone
  | JBool b => Some (HNum (if b then 1%Qc else 0%Qc))
  | JNum q => Some (HNum q)
  | JStr s => Some (HStr s)
  | JArr _ => None
  | JObj _ => None
  end.

(** ** Exceptions and the ways a call can end *)

Inductive exception : Type :=
  | FileNotFoundError
  | JSONDecodeError
  | JSONError              (* ijson.JSONError *)
  | IncompleteJSONError    (* subclass of ijson.JSONError *)
  | AttributeError
  | TypeError
  | OSError
  | StixError.             (* any exception raised by stix2 *)

Global Instance exception_eq_dec : EqDecision exception.
Proof. solve_decision. Defined.

(** [except ijson.JSONError] catches the class and its subclass. *)
Definition is_ijson_error (e : exception) : bool :=
  match e with
  | JSONError | IncompleteJSONError => true
  | _ => false
  end.

(** A call returns, leaves through [sys.exit(code)], or lets an exception
    escape (the interpreter then ends the process with status 1). *)
Inductive outcome (A : Type) : Type :=
  | Returned (a : A)
  | SysExit (code : nat)
  | Uncaught (e : exception).
Arguments Returned {A} a.
Arguments SysExit {A} code.
Arguments Uncaught {A} e.

Global Instance outcome_ret : MRet outcome := λ A a, Returned a.

Global Instance outcome_fmap : FMap outcome := λ A B f m,
  match m with
  | Returned a => Returned (f a)
  | SysExit c => SysExit c
  | Uncaught e => Uncaught e
  end.

Global Instance outcome_bind : MBind outcome := λ A B k m,
  match m with
  | Returned a => k a
  | SysExit c => SysExit c
  | Uncaught e => Uncaught e
  end.


(** Status the process ends with when the call does not return. *)
Definition exit_status {A : Type} (m : outcome A) : option nat :=
  match m with
  | Returned _ => None
  | SysExit c => Some c
  | Uncaught _ => Some 1
  end.

(** ** Python objects held by the loader *)

(** [parse(obj, allow_custom=True)] answers with a typed stix2 object or,
    for a type it does not know, with the value it was given. Of a typed
    object the engine reads [type], [id], [name], [source_ref] and
    [target_ref]: stix2 validates them as [str], so [attrs] keeps the
    [str]-valued properties by name and [extra] the remaining ones. A plain
    value (a [dict], a [str], ...) has none of these attributes. *)
Inductive pyobj : Type :=
  | StixObj (attrs : gmap string string) (extra : list (string * json))
  | Plain (v : json).

(** [getattr(obj, name, dflt)] for the attribute names above. *)
Definition getattr (obj : pyobj) (name dflt : string) : string :=
  match obj with
  | StixObj attrs _ => default dflt (attrs !! name)
  | Plain _ => dflt
  end.

(** [hasattr(obj, name)] for the attribute names above. *)
Definition hasattr (obj : pyobj) (name : string) : bool :=
  match obj with
  | StixObj attrs _ => bool_decide (is_Some (attrs !! name))
  | Plain _ => false
  end.

(** [for x in v]: a [list] gives its items, a [str] its characters, a
    [dict] its keys; anything else is not iterable. *)
Definition py_iter (v : json) : outcome (list json) :=
  match v with
  | JArr items => Returned items
  | JStr s => Returned ((λ c, JStr (String c EmptyString)) <$> String.list_ascii_of_string s)
  | JObj fields => Returned (JStr <$> fields.*1)
  | JNull | JBool _ | JNum _ => Uncaught TypeError
  end.

(** What [open(file_path)] followed by [json.load(f)] does. *)
Inductive read_result : Type :=
  | ReadRaises (e : exception)
  | ReadValue (raw_data : json).

(** [str.replace(a, b)] for one-character [a] and [b]. *)
Fixpoint replace_char (a b : ascii) (s : string) : string :=
  match s with
  | EmptyString => EmptyString
  | String c rest =>
      String (if decide (c = a) then b else c) (replace_char a b rest)
  end.

(** ** The streaming source *)

(** What [ijson.items(f, "objects.item")] does when iterated: it yields an
    object and goes on, ends, or raises. *)
Inductive generator : Type :=
  | GenYield (obj : json) (rest : generator)
  | GenStop
  | GenRaise (e : exception).

(** A file of the raw-bundles directory: its name, its bytes, and what the
    streaming parser produces from these bytes. *)
Record stix_file : Type := StixFile {
  file_name : string;
  file_bytes : string;
  file_items : generator
}.

(** What [merge_all_stix_files] leaves at the canonical path. *)
Inductive merge_result : Type :=
  | NoOutput
  | Copied (src : stix_file)
  | Rebundled (objects : list json).

Definition ends_with (suffix s : string) : bool :=
  bool_decide (String.list_ascii_of_string suffix `suffix_of` String.list_ascii_of_string s).

(** [directory.glob("*.json")], on the directory's entries in the order
    the file system enumerates them. *)
Definition glob_json (directory : list stix_file) : list stix_file :=
  filter (λ f, ends_with ".json" (file_name f) = true) directory.

Section Engine.

(** [stix2.parse(obj, allow_custom=True)]: the exception it raises, or
    the object it returns. *)
Variable parse : json → exception + pyobj.

(** Whether the [stix2.Bundle] constructor accepts these objects; the
    bundle it builds holds them in the order given. *)
Variable Bundle : list pyobj → bool.

(** Whether [open(path, "w")] and the write succeed. *)
Variable writable : string → bool.

(** Whether [config.APT_DIR.mkdir(parents=True, exist_ok=True)] succeeds. *)
Variable apt_dir_made : bool.

(** [Bundle(objects=...).serialize(pretty=True)]. *)
Variable serialize : list json → string.

(** *** Object loader *)

(** The [for i, obj in enumerate(...)] loop of [load_stix_data], on the
    objects still to visit, with [parsed_objects] and [skipped]. *)
Fixpoint load_loop (raw : list json) (parsed_objects : list pyobj)
    (skipped : nat) : list pyobj * nat :=
  match raw with
  | [] => (parsed_objects, skipped)
  | obj :: rest =>
      match parse obj with
      | inr parsed =>
          if hasattr parsed "type"
          then load_loop rest (parsed_objects ++ [parsed]) skipped
          else load_loop rest parsed_objects (S skipped)
      | inl _ => load_loop rest parsed_objects (S skipped)
      end
  end.

(** Returns [parsed_objects] together with the [skipped] count of the
    closing report. *)
Definition load_stix_data (file : read_result) : outcome (list pyobj * nat) :=
  match file with
  | ReadRaises FileNotFoundError => SysExit 1
  | ReadRaises JSONDecodeError => SysExit 1
  | ReadRaises e => Uncaught e
  | ReadValue raw_data =>
      match raw_data with
      | JObj fields =>
          raw ← py_iter (default (JArr []) (dict_get fields "objects"));
          mret (load_loop raw [] 0)
      | _ => Uncaught AttributeError
      end
  end.

(** *** Relationship resolver *)

Definition get_related_objects (objects : list pyobj) (source_id : string)
    : list pyobj * list pyobj :=
  let relationships :=
    filter (λ obj, getattr obj "type" "" = "relationship"
                   ∧ getattr obj "source_ref" "" = source_id) objects in
  let target_ids : gset string :=
    list_to_set ((λ rel, getattr rel "target_ref" "") <$> relationships) in
  let targets :=
    filter (λ obj, getattr obj "id" "" ∈ target_ids) objects in
  let reverse_relationships :=
    filter (λ obj, getattr obj "type" "" = "relationship"
                   ∧ getattr obj "target_ref" "" = source_id) objects in
  let reverse_source_ids : gset string :=
    list_to_set ((λ rel, getattr rel "source_ref" "") <$> reverse_relationships) in
  let reverse_sources :=
    filter (λ obj, getattr obj "id" "" ∈ reverse_source_ids) objects in
  let all_relationships := relationships ++ reverse_relationships in
  let all_targets := targets ++ reverse_sources in
  (all_relationships, all_targets).

(** *** Subgraph extractor *)

(** One turn of the deduplication loop of [extract_all_apts], on the
    state [(seen_ids, unique_objects)]. *)
Definition extract_step (st : gset string * list pyobj) (obj : pyobj)
    : gset string * list pyobj :=
  let obj_id := getattr obj "id" "" in
  if bool_decide (obj_id ≠ "") && bool_decide (obj_id ∉ st.1)
  then ({[obj_id]} ∪ st.1, st.2 ++ [obj])
  else st.

(** [unique_objects] for one group, as handed to [Bundle]. *)
Definition unique_objects_of (objects : list pyobj) (apt_group : pyobj)
    : list pyobj :=
  let group_id := getattr apt_group "id" "unknown_id" in
  let '(relationships, targets) := get_related_objects objects group_id in
  (foldl extract_step (∅, []) ([apt_group] ++ relationships ++ targets)).2.

Definition filename_of (apt_group : pyobj) : string :=
  let group_name :=
    replace_char "/" "_"
      (replace_char " " "_" (getattr apt_group "name" "unknown_apt")) in
  let group_id := getattr apt_group "id" "unknown_id" in
  group_name +:+ "_" +:+ group_id +:+ ".json".

(** The body of the [for apt_group in intrusion_sets] loop: the file
    written for the group, if any. *)
Definition extract_group (objects : list pyobj) (apt_group : pyobj)
    : option (string * list pyobj) :=
  let filename := filename_of apt_group in
  let unique_objects := unique_objects_of objects apt_group in
  if Bundle unique_objects
  then if writable filename then Some (filename, unique_objects) else None
  else None.

(** Returns the files written, in order: name and bundled objects. The
    output directory is made first; a failure there is caught by
    nobody. *)
Definition extract_all_apts (STIX_FILE : read_result)
    : outcome (list (string * list pyobj)) :=
  if apt_dir_made
  then
    loaded ← load_stix_data STIX_FILE;
    let objects := loaded.1 in
    let intrusion_sets :=
      filter (λ obj, getattr obj "type" "" = "intrusion-set") objects in
    if bool_decide (intrusion_sets = [])
    then mret []
    else mret (omap (extract_group objects) intrusion_sets)
  else Uncaught OSError.

(** *** Streaming ingestor *)

(** The [for obj in ijson.items(...)] loop inside its [try], with
    [objects] and [count]; [except ijson.JSONError] ends it quietly. *)
Fixpoint streaming_loop (g : generator) (objects : list json) (count : nat)
    : outcome (list json) :=
  match g with
  | GenYield obj rest => streaming_loop rest (objects ++ [obj]) (S count)
  | GenStop => Returned objects
  | GenRaise e => if is_ijson_error e then Returned objects else Uncaught e
  end.

Definition load_stix_objects_streaming (file_path : stix_file)
    : outcome (list json) :=
  streaming_loop (file_items file_path) [] 0.

(** *** Bundle merger *)

Definition get_stix_files (directory : list stix_file) (exclude_file : string)
    : list stix_file :=
  filter (λ f, file_name f ≠ exclude_file) (glob_json directory).

(** [all_objects.extend(load_stix_objects_streaming(stix_file))] for each
    file in turn. *)
Fixpoint load_all (stix_files : list stix_file) (all_objects : list json)
    : outcome (list json) :=
  match stix_files with
  | [] => Returned all_objects
  | stix_file :: rest =>
      objects ← load_stix_objects_streaming stix_file;
      load_all rest (all_objects ++ objects)
  end.

(** One turn of the deduplication loop of [merge_all_stix_files], on the
    state [(seen_ids, unique_objects)]: [obj.get] needs a [dict], and the
    membership test a hashable [obj_id]. *)
Definition merge_step (st : gset hkey * list json) (obj : json)
    : outcome (gset hkey * list json) :=
  match obj with
  | JObj fields =>
      let obj_id := default JNull (dict_get fields "id") in
      if truthy obj_id
      then match py_hash obj_id with
           | Some k =>
               if bool_decide (k ∉ st.1)
               then Returned ({[k]} ∪ st.1, st.2 ++ [obj])
               else Returned st
           | None => Uncaught TypeError
           end
      else Returned st
  | _ => Uncaught AttributeError
  end.

Fixpoint merge_loop (all_objects : list json) (st : gset hkey * list json)
    : outcome (gset hkey * list json) :=
  match all_objects with
  | [] => Returned st
  | obj :: rest => st' ← merge_step st obj; merge_loop rest st'
  end.

Definition write_bundle (objects : list json) (output_file : string)
    : outcome merge_result :=
  if Bundle (Plain <$> objects)
  then if writable output_file
       then Returned (Rebundled objects)
       else Uncaught OSError
  else Uncaught StixError.

Definition merge_all_stix_files (stix_dir : list stix_file)
    (merged_file : string) : outcome merge_result :=
  let stix_files := get_stix_files stix_dir merged_file in
  match stix_files with
  | [] => Returned NoOutput
  | first :: others =>
      all_objects ← load_all stix_files [];
      match others with
      | [] =>
          if writable merged_file
          then Returned (Copied first)
          else Uncaught OSError
      | _ :: _ =>
          st ← merge_loop all_objects (∅, []);
          write_bundle st.2 merged_file
      end
  end.

(** The bytes left at the canonical path. *)
Definition output_bytes (r : merge_result) : option string :=
  match r with
  | NoOutput => None
  | Copied src => Some (file_bytes src)
  | Rebundled objects => Some (serialize objects)
  end.

End Engine.

(** The objects a streaming reader finds in a file. *)
Fixpoint generator_items (g : generator) : list json :=
  match g with
  | GenYield obj rest => obj :: generator_items rest
  | GenStop | GenRaise _ => []
  end.

(** A generator that yields [objects] and then behaves as [last]. *)
Fixpoint yields (objects : list json) (last : generator) : generator :=
  match objects with
  | [] => last
  | obj :: rest => GenYield obj (yields rest last)
  end.

(** The objects of the bundle left at the canonical path. *)
Definition output_objects (r : merge_result) : list json :=
  match r with
  | NoOutput => []
  | Copied src => generator_items (file_items src)
  | Rebundled objects => objects
  end.

(** [obj.get("id")] of a raw object, [None] included. *)
Definition raw_id (obj : json) : json :=
  match obj with
  | JObj fields => default JNull (dict_get fields "id")
  | _ => JNull
  end.

(** ** A sample environment *)

(** A small stand-in for [stix2.parse(obj, allow_custom=True)], used in the
    examples: the four kinds the engine names, each with its required
    [str] properties; a [dict] of another type is handed back as given;
    anything else is rejected. *)
Module Sample.

Definition required (type : string) : option (list string) :=
  if decide (type = "intrusion-set") then Some ["id"; "name"]
  else if decide (type = "attack-pattern") then Some ["id"; "name"]
  else if decide (type = "campaign") then Some ["id"; "name"]
  else if decide (type = "relationship")
       then Some ["id"; "relationship_type"; "source_ref"; "target_ref"]
  else None.

Definition has_str (fields : list (string * json)) (k : string) : bool :=
  match dict_get fields k with
  | Some (JStr _) => true
  | _ => false
  end.

Definition str_fields (fields : list (string * json)) : gmap string string :=
  list_to_map
    (omap (λ kv, match kv.2 with JStr s => Some (kv.1, s) | _ => None end)
          fields).

Definition other_fields (fields : list (string * json))
    : list (string * json) :=
  filter (λ kv, match kv.2 with JStr _ => false | _ => true end = true)
         fields.

Definition parse (obj : json) : exception + pyobj :=
  match obj with
  | JObj fields =>
      match dict_get fields "type" with
      | Some (JStr type) =>
          match required type with
          | Some props =>
              if forallb (has_str fields) props
              then inr (StixObj (str_fields fields) (other_fields fields))
              else inl StixError
          | None => inr (Plain obj)
          end
      | _ => inl StixError
      end
  | _ => inl StixError
  end.

Definition Bundle (objects : list pyobj) : bool := true.
Definition writable (path : string) : bool := true.

(** Shorthands for raw objects. *)
Definition node (type id name : string) : json :=
  JObj [("type", JStr type); ("id", JStr id); ("name", JStr name)].

Definition edge (id source target : string) : json :=
  JObj [("type", JStr "relationship"); ("id", JStr id);
        ("relationship_type", JStr "uses");
        ("source_ref", JStr source); ("target_ref", JStr target)].

Definition bundle_doc (objects : list json) : read_result :=
  ReadValue (JObj [("type", JStr "bundle"); ("objects", JArr objects)]).

(** An attack-pattern without its required [name]: strict parsing
    rejects it. *)
Definition nameless_technique : json :=
  JObj [("type", JStr "attack-pattern"); ("id", JStr "AP-9")].

Definition group_one : json := node "intrusion-set" "IS-1" "G1".

Definition technique_one : json := node "attack-pattern" "AP-1" "T1".

Definition technique_two : json := node "attack-pattern" "AP-2" "T2".

(** The object the loader holds for a raw object. *)
Definition typed (obj : json) : pyobj :=
  match parse obj with
  | inr parsed => parsed
  | inl _ => Plain obj
  end.

Definition uses_one : json := edge "R1" "IS-1" "AP-1".

Definition uses_two : json := edge "R2" "IS-1" "AP-2".

(** The corpus of the specification's scenario. *)
Definition scenario_corpus : list pyobj :=
  typed <$> [group_one; technique_one; technique_two; uses_one; uses_two].

(** The same objects, the techniques listed first and in the other
    order. *)
Definition scrambled_corpus : list pyobj :=
  typed <$> [technique_two; technique_one; group_one; uses_one; uses_two].

Definition group_two : json := node "intrusion-set" "IS-2" "G2".

Definition allies : json := edge "R3" "IS-1" "IS-2".

(** Two groups and a relationship from the first to the second. *)
Definition allied_groups : list json := [group_one; group_two; allies].

Definition self_loop : json := edge "R4" "IS-1" "IS-1".

(** A group with a relationship from itself to itself. *)
Definition looping_group : list json := [group_one; self_loop].

(** The text of a bundle of flat objects with [str] fields, and the file
    that holds it. *)
Definition quoted (s : string) : string :=
  let q := String (ascii_of_nat 34) EmptyString in q +:+ s +:+ q.

Definition render_field (kv : string * json) : string :=
  quoted kv.1 +:+ ":"
    +:+ match kv.2 with JStr s => quoted s | _ => "null" end.

Definition render_object (obj : json) : string :=
  match obj with
  | JObj fields => "{" +:+ String.concat "," (render_field <$> fields) +:+ "}"
  | _ => "null"
  end.

Definition render_open (objects : list json) : string :=
  "{" +:+ quoted "objects" +:+ ":["
    +:+ String.concat "," (render_object <$> objects).

Definition bundle_file (name : string) (objects : list json) : stix_file :=
  StixFile name (render_open objects +:+ "]}") (yields objects GenStop).

(** A file cut off after its last complete object: the parser yields the
    objects and then reports the premature end. *)
Definition cut_file (name : string) (objects : list json) : stix_file :=
  StixFile name (render_open objects +:+ ",")
           (yields objects (GenRaise IncompleteJSONError)).

Definition x_first : json := node "attack-pattern" "X" "first".
Definition x_second : json := node "attack-pattern" "X" "second".
Definition y_first : json := node "attack-pattern" "Y" "first".
Definition y_second : json := node "attack-pattern" "Y" "second".
Definition z_first : json := node "attack-pattern" "Z" "first".

(** An object without [id], and one whose [id] is empty. *)
Definition anonymous : json :=
  JObj [("type", JStr "attack-pattern"); ("name", JStr "nobody")].
Definition empty_id : json := node "attack-pattern" "" "blank".

(** One raw file that lists the id [X] twice. *)
Definition repeating_file : stix_file :=
  bundle_file "enterprise.json" [x_first; x_second].

Definition file_a : stix_file := bundle_file "fileA.json" [x_first; y_first].
Definition file_b : stix_file := bundle_file "fileB.json" [y_second; z_first].
Definition file_cut : stix_file := cut_file "cut.json" [x_first; y_first].

(** The canonical file left by an earlier run. *)
Definition canonical : stix_file := bundle_file "stix_full.json" [].

Definition serialize (objects : list json) : string :=
  render_open objects +:+ "]}".

Definition file_c : stix_file := bundle_file "fileC.json" [anonymous; x_first].
Definition file_d : stix_file := bundle_file "fileD.json" [empty_id; x_second].





(** A technique that two relationships reach from the group, and the same
    corpus with an older object under the id of the technique. *)
Definition uses_x_one : json := edge "R5" "IS-1" "X".
Definition uses_x_two : json := edge "R6" "IS-1" "X".

Definition twice_reached : list json :=
  [group_one; x_second; uses_x_one; uses_x_two].

Definition twice_reached_rival : list json :=
  [group_one; x_first; x_second; uses_x_one; uses_x_two].

(** A typed group that carries no [id]. *)
Definition unnamed_group : pyobj :=
  StixObj {[ "type" := "intrusion-set"; "name" := "G0" ]} [].

Definition two_objects : list json := [group_one; nameless_technique].

Definition two_objects_doc : list (string * json) :=
  [("type", JStr "bundle"); ("objects", JArr two_objects)].

(** An object of a type that strict parsing does not know. *)
Definition tactic : json := node "x-mitre-tactic" "TA-1" "Persistence".

(** A file whose reading breaks with an error that is not [ijson]'s. *)
Definition failing_file : stix_file :=
  StixFile "failing.json" "" (yields [x_first] (GenRaise OSError)).

(** A file whose [objects] array holds a string among its objects, and one
    with an object whose [id] is a list. *)
Definition stray_file : stix_file :=
  bundle_file "stray.json" [z_first; JStr "oops"; y_first].

Definition list_id : json :=
  JObj [("type", JStr "attack-pattern"); ("id", JArr [JStr "X"])].

Definition odd_file : stix_file := bundle_file "odd.json" [list_id].

(** The merged bundle of [file_a] and [file_b], as a later run reads it. *)
Definition merged_doc : list (string * json) :=
  [("type", JStr "bundle"); ("objects", JArr [x_first; y_first; z_first])].

(** What the loader makes of it. *)
Definition merged_corpus : list pyobj :=
  typed <$> [x_first; y_first; z_first].

(** A directory entry that is not a [.json] file. *)
Definition notes : stix_file := StixFile "notes.txt" "to do" GenStop.

(** A group that no relationship mentions, beside the scenario's. *)
Definition lone_corpus : list pyobj :=
  typed <$> [group_two; group_one; technique_one; uses_one].

(** [urlparse(url).path] for a URL with a scheme and a host and neither
    query nor fragment: what starts at the third [/]. *)
Fixpoint from_slash (n : nat) (s : string) : string :=
  match s with
  | EmptyString => EmptyString
  | String c rest =>
      if decide (c = "/"%char)
      then match n with 0 => s | S n' => from_slash n' rest end
      else from_slash n rest
  end.

Definition url_path (url : string) : string := from_slash 2 url.

Definition STIX_URL : string :=
  "https://raw.githubusercontent.com/mitre-attack/attack-stix-data/master/enterprise-attack/enterprise-attack.json".

End Sample.

(** ** Notions used by the statements *)

(** What the loader keeps of one raw object: the typed result of [parse],
    when there is one and it has a [type]. *)
Definition kept (parse : json → exception + pyobj) (obj : json) : option pyobj :=
  match parse obj with
  | inr parsed => if hasattr parsed "type" then Some parsed else None
  | inl _ => None
  end.

(** The raw [type] field of an object of the [objects] array. *)
Definition raw_type (obj : json) : option string :=
  match obj with
  | JObj fields =>
      match dict_get fields "type" with
      | Some (JStr type) => Some type
      | _ => None
      end
  | _ => None
  end.

Definition extraction_kinds : list string :=
  ["attack-pattern"; "campaign"; "intrusion-set"].

(** The loader as the specification words it: an object of [raw] that
    fails strict parsing and is of an extraction-relevant kind comes back
    as the raw property bag. *)
Definition keeps_raw_on_failure (parse : json → exception + pyobj)
    (fields : list (string * json)) (raw : list json) : Prop :=
  dict_get fields "objects" = Some (JArr raw) →
  ∀ obj e type,
    obj ∈ raw → parse obj = inl e →
    raw_type obj = Some type → type ∈ extraction_kinds →
    ∃ res, load_stix_data parse (ReadValue (JObj fields)) = Returned res
           ∧ Plain obj ∈ res.1.


(** A decoded document the loader can walk: a [dict] whose [objects]
    member, when there is one, can be iterated. *)
Definition walkable (raw_data : json) : Prop :=
  match raw_data with
  | JObj fields =>
      match dict_get fields "objects" with
      | None | Some (JArr _) | Some (JStr _) | Some (JObj _) => True
      | Some JNull | Some (JBool _) | Some (JNum _) => False
      end
  | _ => False
  end.

(** The deduplication loops, read as a function: walk [l], keep an element
    when it has a key that was not met before. *)
Fixpoint first_occurrences {A K : Type} `{Countable K} (key : A → option K)
    (seen : gset K) (l : list A) : list A :=
  match l with
  | [] => []
  | x :: rest =>
      match key x with
      | Some k =>
          if decide (k ∈ seen)
          then first_occurrences key seen rest
          else x :: first_occurrences key ({[k]} ∪ seen) rest
      | None => first_occurrences key seen rest
      end
  end.

(** The key under which the extractor remembers an object: its [id], unless
    it is missing or empty. *)
Definition extract_key (obj : pyobj) : option string :=
  let obj_id := getattr obj "id" "" in
  if decide (obj_id = "") then None else Some obj_id.

(** The key under which the merger remembers a raw object: the hash key of
    [obj.get("id")], unless that value is false or cannot be hashed. *)
Definition merge_key (obj : json) : option hkey :=
  if truthy (raw_id obj) then py_hash (raw_id obj) else None.

(** A raw object the merger's loop can process: a [dict] whose [id] is
    false or hashable. *)
Definition mergeable (obj : json) : Prop :=
  match obj with
  | JObj _ => truthy (raw_id obj) = true → is_Some (py_hash (raw_id obj))
  | _ => False
  end.

(** The two relationship lists of the resolver. *)
Definition forward_relationships (objects : list pyobj) (source_id : string)
    : list pyobj :=
  filter (λ obj, getattr obj "type" "" = "relationship"
                 ∧ getattr obj "source_ref" "" = source_id) objects.

Definition reverse_relationships (objects : list pyobj) (source_id : string)
    : list pyobj :=
  filter (λ obj, getattr obj "type" "" = "relationship"
                 ∧ getattr obj "target_ref" "" = source_id) objects.

(** Some relationship of [rels] names [obj] in its [ref] field. *)
Definition referenced_by (ref : string) (rels : list pyobj) (obj : pyobj) : Prop :=
  Exists (λ rel, getattr rel ref "" = getattr obj "id" "") rels.

Global Instance referenced_by_dec ref rels obj :
  Decision (referenced_by ref rels obj).
Proof. unfold referenced_by. apply _. Defined.

(** The objects of the corpus that [rels] reference, in corpus order. *)
Definition resolved (ref : string) (rels objects : list pyobj) : list pyobj :=
  filter (referenced_by ref rels) objects.

(** Position in [rels] of the first relationship that names [obj]. *)
Definition first_reference (ref : string) (rels : list pyobj) (obj : pyobj)
    : option nat :=
  fst <$> list_find (λ rel, getattr rel ref "" = getattr obj "id" "") rels.

(** [related] is in the order of the relationships that reference its
    objects: an object listed earlier is not first referenced later. *)
Definition follows_relationships (ref : string) (rels related : list pyobj)
    : Prop :=
  ∀ i j o1 o2 a b,
    i < j → related !! i = Some o1 → related !! j = Some o2 →
    first_reference ref rels o1 = Some a →
    first_reference ref rels o2 = Some b →
    a ≤ b.

(** The resolver as the specification words it. *)
Definition resolves_in_relationship_order (objects : list pyobj)
    (source_id : string) : Prop :=
  let forward := forward_relationships objects source_id in
  let reverse := reverse_relationships objects source_id in
  ∃ targets sources,
    get_related_objects objects source_id
    = (forward ++ reverse, targets ++ sources)
    ∧ (∀ obj, obj ∈ targets ↔ obj ∈ objects ∧ referenced_by "target_ref" forward obj)
    ∧ (∀ obj, obj ∈ sources ↔ obj ∈ objects ∧ referenced_by "source_ref" reverse obj)
    ∧ follows_relationships "target_ref" forward targets
    ∧ follows_relationships "source_ref" reverse sources.

(** The list the extractor deduplicates for a group:
    [[apt_group] + relationships + targets]. *)
Definition assembled (objects : list pyobj) (apt_group : pyobj) : list pyobj :=
  let related :=
    get_related_objects objects (getattr apt_group "id" "unknown_id") in
  [apt_group] ++ related.1 ++ related.2.

(** The data model's identity rule on a corpus: objects with the same [id]
    are the same object. *)
Definition ids_identify (objects : list pyobj) : Prop :=
  ∀ o1 o2,
    o1 ∈ objects → o2 ∈ objects →
    getattr o1 "id" "" = getattr o2 "id" "" → o1 = o2.

(** A generator that raises nothing but [ijson]'s own errors. *)
Fixpoint readable (g : generator) : bool :=
  match g with
  | GenYield _ rest => readable rest
  | GenStop => true
  | GenRaise e => is_ijson_error e
  end.

(** Everything the candidate files yield, file after file. *)
Definition streamed (stix_files : list stix_file) : list json :=
  concat ((λ f, generator_items (file_items f)) <$> stix_files).

(** The specification's invariant on what the engine writes: no two
    objects of an extracted or merged bundle share an [id]. *)
Definition bundles_have_unique_ids (parse : json → exception + pyobj)
    (Bundle : list pyobj → bool) (writable : string → bool)
    (corpus_file : read_result) (stix_dir : list stix_file)
    (merged_file : string) : Prop :=
  (∀ log entry,
     extract_all_apts parse Bundle writable true corpus_file = Returned log →
     entry ∈ log →
     NoDup ((λ obj, getattr obj "id" "") <$> entry.2))
  ∧ (∀ result,
       merge_all_stix_files Bundle writable stix_dir merged_file
       = Returned result →
       NoDup (raw_id <$> output_objects result)).

(** ** The downloader and the command line *)

(** [c] occurs in [s]. *)
Definition occurs (c : ascii) (s : string) : Prop :=
  c ∈ String.list_ascii_of_string s.

Global Instance occurs_dec c s : Decision (occurs c s).
Proof. unfold occurs. apply _. Defined.

(** [os.path.basename(path)]: what follows the last [/] of [path]. *)
Fixpoint basename (path : string) : string :=
  match path with
  | EmptyString => EmptyString
  | String c rest =>
      if bool_decide (occurs "/" rest) then basename rest
      else if decide (c = "/"%char) then rest
      else String c rest
  end.

(** [str.lower()] on the letters A to Z. No other character lowers to a
    letter of [download], [merge], [extract] or [help], which is all the
    command line compares the result with. *)
Definition ascii_lower (c : ascii) : ascii :=
  let n := nat_of_ascii c in
  if (65 <=? n) && (n <=? 90) then ascii_of_nat (n + 32) else c.

Fixpoint lower (s : string) : string :=
  match s with
  | EmptyString => EmptyString
  | String c rest => String (ascii_lower c) (lower rest)
  end.

(** What [requests.get(url, timeout=30)] followed by
    [response.raise_for_status()] does: it raises a [RequestException], or
    hands over the body of the response. *)
Inductive http_result : Type :=
  | RequestFailed
  | Received (content : string).

(** What a command of [lib/stix.py] did when it returned. *)
Inductive command_result : Type :=
  | Downloaded (saved : option (string * string))
  | Merged (result : merge_result)
  | Extracted (log : list (string * list pyobj))
  | Helped.

Section CommandLine.

(** [urlparse(url).path]. *)
Variable url_path : string → string.

(** The answer of the network to a request for [url]. *)
Variable request : string → http_result.

(** Whether the download directory exists, and whether it can be made. *)
Variable dir_exists can_create : bool.

(** Whether a file of this name can be written in the download
    directory. *)
Variable can_save : string → bool.

Variable parse : json → exception + pyobj.
Variable Bundle : list pyobj → bool.
Variable writable : string → bool.
Variable apt_dir_made : bool.

(** [config.STIX_URL], the entries of [config.STIX_DIR], the name of
    [config.STIX_FILE] and what reading it gives. *)
Variable STIX_URL : string.
Variable STIX_DIR : list stix_file.
Variable merged_name : string.
Variable STIX_FILE : read_result.

Definition get_filename_from_url (url : string) : string :=
  basename (url_path url).

(** [directory.mkdir(parents=True)] when the directory is not there. *)
Definition ensure_dir : outcome unit :=
  if dir_exists then Returned ()
  else if can_create then Returned () else Uncaught OSError.

(** Returns the file saved, name and content, if any: a failed request is
    reported and swallowed, a failed write is not caught. *)
Definition download_file (url filename : string)
    : outcome (option (string * string)) :=
  match request url with
  | RequestFailed => Returned None
  | Received content =>
      if can_save filename
      then Returned (Some (filename, content))
      else Uncaught OSError
  end.

Definition download_all : outcome (option (string * string)) :=
  let url := STIX_URL in
  let filename := get_filename_from_url url in
  _ ← ensure_dir;
  download_file url filename.

(** [main] of [lib/stix.py], on [sys.argv]. *)
Definition main (argv : list string) : outcome command_result :=
  match argv with
  | [] | [_] => SysExit 1
  | _ :: arg :: _ =>
      let command := lower arg in
      if decide (command = "download") then Downloaded <$> download_all
      else if decide (command = "merge")
      then Merged <$> merge_all_stix_files Bundle writable STIX_DIR merged_name
      else if decide (command = "extract")
      then Extracted
           <$> extract_all_apts parse Bundle writable apt_dir_made STIX_FILE
      else if decide (command = "help") then Returned Helped
      else SysExit 1
  end.

End CommandLine.

(** ** Further notions *)

(** A relationship that names [id] at one of its ends. *)
Definition mentions (id : string) (obj : pyobj) : Prop :=
  getattr obj "type" "" = "relationship"
  ∧ (getattr obj "source_ref" "" = id ∨ getattr obj "target_ref" "" = id).

Global Instance mentions_dec id obj : Decision (mentions id obj).
Proof. unfold mentions. apply _. Defined.

(** [x] is listed in [l] once, and twice. *)
Definition exactly_once {A : Type} (x : A) (l : list A) : Prop :=
  ∃ l1 l2, l = l1 ++ x :: l2 ∧ (x ∉ l1) ∧ (x ∉ l2).


(** No other object of the corpus carries the [id] of [obj]. *)
Definition sole_under_id (objects : list pyobj) (obj : pyobj) : Prop :=
  ∀ other,
    other ∈ objects → getattr other "id" "" = getattr obj "id" "" →
    other = obj.

(** [rel] is a relationship between [group_id] and the id of [obj], in
    one direction or the other. *)
Definition links (group_id : string) (rel obj : pyobj) : Prop :=
  getattr rel "type" "" = "relationship"
  ∧ ((getattr rel "source_ref" "" = group_id
      ∧ getattr rel "target_ref" "" = getattr obj "id" "")
     ∨ (getattr rel "target_ref" "" = group_id
        ∧ getattr rel "source_ref" "" = getattr obj "id" "")).



(** [name] is the last segment of [path]: what follows its last [/], or
    all of it when it holds none. *)
Definition last_segment (path name : string) : Prop :=
  ¬ occurs "/" name
  ∧ ∃ dir,
      path = dir +:+ name ∧ (dir = "" ∨ ∃ parent, dir = parent +:+ "/").

(** A directory entry that [get_stix_files] selects. *)
Definition candidate (merged_file : string) (f : stix_file) : Prop :=
  ends_with ".json" (file_name f) = true ∧ file_name f ≠ merged_file.

Global Instance candidate_dec merged_file f : Decision (candidate merged_file f).
Proof. unfold candidate. apply _. Defined.

(** Stand-ins for the network, used in the examples. *)
Module SampleNet.

Definition request (url : string) : http_result := Received "{}".

Definition no_network (url : string) : http_result := RequestFailed.

End SampleNet.

(** * Properties *)

(** ** The object loader *)

Section LoaderFacts.

Variable parse : json → exception + pyobj.

Lemma kept_inl obj e : parse obj = inl e → kept parse obj = None.
Proof. unfold kept. by intros ->. Qed.

Lemma kept_is_typed obj o :
  kept parse obj = Some o → ∃ attrs extra, o = StixObj attrs extra.
Proof.
  unfold kept. destruct (parse obj) as [e|[attrs extra|v]]; simpl; try done.
  case_match; [|done]. intros [= <-]. eauto.
Qed.

Lemma kept_has_type obj o : kept parse obj = Some o → hasattr o "type" = true.
Proof.
  unfold kept. destruct (parse obj) as [e|p]; [done|].
  destruct (hasattr p "type") eqn:Hty; [|done]. by intros [= <-].
Qed.

Lemma length_omap_kept (raw : list json) : length (omap (kept parse) raw) ≤ length raw.
Proof.
  induction raw as [|obj raw IH]; [done|].
  cbn. destruct (kept parse obj); cbn; lia.
Qed.

Lemma skipped_count (raw : list json) :
  length (filter (λ obj, kept parse obj = None) raw)
  = length raw - length (omap (kept parse) raw).
Proof.
  induction raw as [|obj raw IH]; [done|].
  rewrite filter_cons. pose proof (length_omap_kept raw).
  cbn. destruct (kept parse obj) eqn:Hk.
  - rewrite decide_False by done. cbn. lia.
  - rewrite decide_True by done. cbn. lia.
Qed.

(** The loop walks the array once: what it keeps goes to the end of
    [parsed_objects], everything else adds one to [skipped]. *)
Lemma load_loop_spec raw parsed_objects skipped :
  load_loop parse raw parsed_objects skipped
  = (parsed_objects ++ omap (kept parse) raw,
     skipped + length (filter (λ obj, kept parse obj = None) raw)).
Proof.
  revert parsed_objects skipped.
  induction raw as [|obj raw IH]; intros acc n; cbn.
  - by rewrite app_nil_r, Nat.add_0_r.
  - destruct (kept parse obj) as [o|] eqn:Hk; unfold kept in Hk;
      destruct (parse obj) as [e|p]; try done.
    + destruct (hasattr p "type"); [|done]. injection Hk as ->.
      rewrite IH, decide_False by done. by rewrite <- app_assoc.
    + rewrite IH, decide_True by done.
      by rewrite length_cons, Nat.add_succ_r.
    + destruct (hasattr p "type"); [done|].
      rewrite IH, decide_True by done.
      by rewrite length_cons, Nat.add_succ_r.
Qed.

Lemma load_stix_data_array fields raw :
  dict_get fields "objects" = Some (JArr raw) →
  load_stix_data parse (ReadValue (JObj fields))
  = Returned (omap (kept parse) raw,
              length (filter (λ obj, kept parse obj = None) raw)).
Proof.
  intros Hget. unfold load_stix_data. rewrite Hget. simpl.
  by rewrite load_loop_spec.
Qed.

Lemma plain_not_kept (raw : list json) v : Plain v ∉ omap (kept parse) raw.
Proof.
  intros (obj & _ & Hk)%list_elem_of_omap.
  by apply kept_is_typed in Hk as (? & ? & ?).
Qed.


(** C1, as amended: for a bundle file whose [objects] member is an array,
    [load_stix_data] returns, in order, exactly the typed results of
    [parse] that carry a [type], and reports every other raw object as
    skipped. A raw object on which [parse] raises is skipped and counted
    whatever its raw [type], [attack-pattern], [campaign] and
    [intrusion-set] included: the raw property bag never enters the
    returned list. *)
Theorem load_stix_data_skips_every_failure fields (raw : list json) :
  dict_get fields "objects" = Some (JArr raw) →
  load_stix_data parse (ReadValue (JObj fields))
  = Returned (omap (kept parse) raw,
              length (filter (λ obj, kept parse obj = None) raw))
  ∧ ∀ obj e,
      obj ∈ raw → parse obj = inl e →
      obj ∈ filter (λ obj, kept parse obj = None) raw
      ∧ Plain obj ∉ omap (kept parse) raw.
Proof.
  intros Hget. split; [by apply load_stix_data_array|].
  intros obj e Hin Hfail. split; [|apply plain_not_kept].
  apply list_elem_of_filter. eauto using kept_inl.
Qed.




End LoaderFacts.

Section LoaderExamples.

Import Sample.

(** What the loader returns on the group followed by the rejected
    technique: the group alone, one object skipped. *)
Example load_two_objects :
  ∃ objs,
    load_stix_data parse (ReadValue (JObj two_objects_doc)) = Returned (objs, 1)
    ∧ (λ obj, getattr obj "id" "") <$> objs = ["IS-1"].
Proof. eexists. split; reflexivity. Qed.

(** C1, counterexample: an [attack-pattern] that fails strict parsing is
    not returned as its raw property bag. *)
Lemma load_stix_data_drops_failed_technique :
  ¬ keeps_raw_on_failure parse two_objects_doc two_objects.
Proof.
  intros Hclaim.
  destruct (Hclaim eq_refl nameless_technique StixError "attack-pattern")
    as (res & Hres & Hin).
  - apply list_elem_of_further, list_elem_of_here.
  - reflexivity.
  - reflexivity.
  - apply list_elem_of_here.
  - rewrite (load_stix_data_array parse two_objects_doc two_objects eq_refl)
      in Hres.
    injection Hres as <-.
    exact (plain_not_kept parse two_objects nameless_technique Hin).
Qed.

Lemma load_stix_data_skips_every_failure_witness :
  load_stix_data parse (ReadValue (JObj two_objects_doc))
  = Returned (omap (kept parse) two_objects,
              length (filter (λ obj, kept parse obj = None) two_objects))
  ∧ ∀ obj e,
      obj ∈ two_objects → parse obj = inl e →
      obj ∈ filter (λ obj, kept parse obj = None) two_objects
      ∧ Plain obj ∉ omap (kept parse) two_objects.
Proof.
  apply (load_stix_data_skips_every_failure parse two_objects_doc two_objects).
  reflexivity.
Defined.


Example load_json_array :
  load_stix_data parse (ReadValue (JArr [])) = Uncaught AttributeError
  ∧ exit_status (load_stix_data parse (ReadValue (JArr []))) = Some 1.
Proof. split; reflexivity. Qed.


End LoaderExamples.

(** ** Keeping first occurrences *)

Section FirstOccurrences.

Context {A K : Type} `{Countable K} (key : A → option K).

Implicit Types (seen : gset K) (l : list A) (k : K).

Lemma first_occurrences_elem seen l x :
  x ∈ first_occurrences key seen l →
  x ∈ l ∧ ∃ k, key x = Some k ∧ k ∉ seen.
Proof.
  revert seen. induction l as [|y l IH]; intros seen; cbn.
  - by intros ?%not_elem_of_nil.
  - destruct (key y) as [k|] eqn:Hy.
    + case_decide as Hk.
      * intros Hin. apply IH in Hin as [? ?]. split; [by right|done].
      * intros [->|Hin]%elem_of_cons.
        -- split; [by left|eauto].
        -- destruct (IH _ Hin) as [? (k' & ? & Hk')].
           apply not_elem_of_union in Hk' as [_ Hk'].
           split; [by right|]. by exists k'.
    + intros Hin. apply IH in Hin as [? ?]. split; [by right|done].
Qed.

Lemma first_occurrences_sublist seen l :
  first_occurrences key seen l `sublist_of` l.
Proof.
  revert seen. induction l as [|y l IH]; intros seen; cbn; [done|].
  destruct (key y) as [k|]; [case_decide|].
  - by apply sublist_cons.
  - by apply sublist_skip.
  - by apply sublist_cons.
Qed.

(** No key is kept twice. *)
Lemma first_occurrences_NoDup seen l :
  NoDup (key <$> first_occurrences key seen l).
Proof.
  revert seen. induction l as [|y l IH]; intros seen; cbn.
  - constructor.
  - destruct (key y) as [k|] eqn:Hy; [case_decide|]; [done| |done].
    cbn. constructor; [|done].
    intros (z & Hz & Hin)%list_elem_of_fmap.
    apply first_occurrences_elem in Hin as [_ (k' & Hk' & Hnot)].
    rewrite Hy in Hz. rewrite Hk' in Hz. injection Hz as ->. set_solver.
Qed.

(** A key met before the walk contributes nothing. *)
Lemma first_occurrences_seen seen l k :
  k ∈ seen → filter (λ y, key y = Some k) (first_occurrences key seen l) = [].
Proof.
  intros Hk. destruct (filter _ _) as [|y ys] eqn:Hf; [done|].
  assert (Hy : y ∈ filter (λ y, key y = Some k) (first_occurrences key seen l))
    by (rewrite Hf; left).
  apply list_elem_of_filter in Hy as [Hy Hin].
  apply first_occurrences_elem in Hin as [_ (k' & Hk' & Hnot)].
  congruence.
Qed.

(** A key met during the walk is kept exactly once, with the first
    element of [l] that carries it. *)
Lemma first_occurrences_unique seen l k :
  k ∉ seen → Exists (λ x, key x = Some k) l →
  ∃ l1 y l2,
    l = l1 ++ y :: l2 ∧ key y = Some k
    ∧ Forall (λ z, key z ≠ Some k) l1
    ∧ filter (λ y, key y = Some k) (first_occurrences key seen l) = [y].
Proof.
  revert seen. induction l as [|x l IH]; intros seen Hk Hex.
  - by apply Exists_nil in Hex.
  - cbn. destruct (decide (key x = Some k)) as [Hx|Hx].
    + exists [], x, l. rewrite Hx, decide_False by done.
      rewrite filter_cons, decide_True by done.
      rewrite first_occurrences_seen by set_solver. by repeat split.
    + apply Exists_cons in Hex as [?|Hex]; [done|].
      destruct (key x) as [k'|] eqn:Hkx; [case_decide as Hk'|].
      * destruct (IH seen Hk Hex) as (l1 & y & l2 & -> & Hy & Hl1 & Hf).
        exists (x :: l1), y, l2. repeat split; try done.
        constructor; [by rewrite Hkx|done].
      * destruct (IH ({[k']} ∪ seen)) as (l1 & y & l2 & Hl & Hy & Hl1 & Hf);
          [|done|].
        { apply not_elem_of_union. split; [|done].
          apply not_elem_of_singleton. congruence. }
        subst l.
        exists (x :: l1), y, l2. rewrite filter_cons, decide_False by congruence.
        repeat split; try done. constructor; [by rewrite Hkx|done].
      * destruct (IH seen Hk Hex) as (l1 & y & l2 & -> & Hy & Hl1 & Hf).
        exists (x :: l1), y, l2. repeat split; try done.
        constructor; [by rewrite Hkx|done].
Qed.

(** An element without a key is never kept. *)
Lemma first_occurrences_keyless seen l x :
  key x = None → x ∉ first_occurrences key seen l.
Proof. intros Hx [_ (k & ? & _)]%first_occurrences_elem. congruence. Qed.

(** When equal keys mean equal elements, every element with a fresh key
    is kept. *)
Lemma first_occurrences_keeps seen l x k :
  (∀ y, y ∈ l → key y = Some k → y = x) →
  x ∈ l → key x = Some k → k ∉ seen →
  filter (λ y, key y = Some k) (first_occurrences key seen l) = [x].
Proof.
  intros Hsame Hin Hx Hk.
  destruct (first_occurrences_unique seen l k Hk)
    as (l1 & y & l2 & -> & Hy & _ & Hf).
  { apply list.Exists_exists. by exists x. }
  rewrite Hf. f_equal. apply Hsame; [|done].
  apply elem_of_app. right. left.
Qed.

End FirstOccurrences.

(** ** The relationship resolver *)

Section ResolverFacts.

Implicit Types (objects rels : list pyobj) (source_id ref : string).

Lemma referenced_by_set ref rels obj :
  getattr obj "id" "" ∈ (list_to_set ((λ rel, getattr rel ref "") <$> rels) : gset string)
  ↔ referenced_by ref rels obj.
Proof.
  unfold referenced_by.
  rewrite elem_of_list_to_set, list_elem_of_fmap, list.Exists_exists.
  split; intros (rel & ? & ?); exists rel; by split.
Qed.

(** The resolver in closed form: two filters for the relationships, two
    filters of the corpus for the related objects. *)
Lemma get_related_objects_spec objects source_id :
  get_related_objects objects source_id
  = (forward_relationships objects source_id
       ++ reverse_relationships objects source_id,
     resolved "target_ref" (forward_relationships objects source_id) objects
       ++ resolved "source_ref" (reverse_relationships objects source_id) objects).
Proof.
  unfold get_related_objects, resolved. f_equal. f_equal.
  - apply list_filter_iff. intros obj. apply referenced_by_set.
  - apply list_filter_iff. intros obj. apply referenced_by_set.
Qed.

Lemma elem_of_forward objects source_id rel :
  rel ∈ forward_relationships objects source_id
  ↔ rel ∈ objects ∧ getattr rel "type" "" = "relationship"
    ∧ getattr rel "source_ref" "" = source_id.
Proof. unfold forward_relationships. rewrite list_elem_of_filter. tauto. Qed.

Lemma elem_of_reverse objects source_id rel :
  rel ∈ reverse_relationships objects source_id
  ↔ rel ∈ objects ∧ getattr rel "type" "" = "relationship"
    ∧ getattr rel "target_ref" "" = source_id.
Proof. unfold reverse_relationships. rewrite list_elem_of_filter. tauto. Qed.

Lemma elem_of_resolved ref rels objects obj :
  obj ∈ resolved ref rels objects
  ↔ obj ∈ objects ∧ ∃ rel, rel ∈ rels ∧ getattr rel ref "" = getattr obj "id" "".
Proof.
  unfold resolved, referenced_by.
  rewrite list_elem_of_filter, list.Exists_exists. tauto.
Qed.

(** C2, as amended: [get_related_objects] returns the forward
    relationships followed by the reverse ones, and the resolved forward
    targets followed by the resolved reverse sources; the relationships
    and, within each of the two segments, the related objects appear in
    the order they have in the object list given (each object once per
    occurrence there), not in the order of the relationships that
    reference them. *)
Theorem get_related_objects_in_corpus_order objects source_id :
  let forward := forward_relationships objects source_id in
  let reverse := reverse_relationships objects source_id in
  let targets := resolved "target_ref" forward objects in
  let sources := resolved "source_ref" reverse objects in
  get_related_objects objects source_id
  = (forward ++ reverse, targets ++ sources)
  ∧ forward `sublist_of` objects ∧ reverse `sublist_of` objects
  ∧ targets `sublist_of` objects ∧ sources `sublist_of` objects
  ∧ (∀ obj, obj ∈ targets ↔ obj ∈ objects ∧ referenced_by "target_ref" forward obj)
  ∧ (∀ obj, obj ∈ sources ↔ obj ∈ objects ∧ referenced_by "source_ref" reverse obj).
Proof.
  intros forward reverse targets sources.
  split; [apply get_related_objects_spec|].
  split; [apply sublist_filter|]. split; [apply sublist_filter|].
  split; [apply sublist_filter|]. split; [apply sublist_filter|].
  split; intros obj; unfold targets, sources, resolved;
    rewrite list_elem_of_filter; tauto.
Qed.

End ResolverFacts.

Section ResolverExamples.

Import Sample.

Example resolve_scenario :
  (λ p, ((λ obj, getattr obj "id" "") <$> p.1,
         (λ obj, getattr obj "id" "") <$> p.2))
    (get_related_objects scenario_corpus "IS-1")
  = (["R1"; "R2"], ["AP-1"; "AP-2"]).
Proof. reflexivity. Qed.

Example resolve_scrambled :
  get_related_objects scrambled_corpus "IS-1"
  = ([typed uses_one; typed uses_two],
     [typed technique_two; typed technique_one]).
Proof. reflexivity. Qed.

(** C2, counterexample: with the techniques listed in the corpus in the
    order AP-2, AP-1 and the relationships in the order R1 (to AP-1), R2
    (to AP-2), the related objects come out as AP-2, AP-1. *)
Lemma get_related_objects_not_in_relationship_order :
  ¬ resolves_in_relationship_order scrambled_corpus "IS-1".
Proof.
  intros (targets & sources & Heq & _ & Hsources & Horder & _).
  rewrite resolve_scrambled in Heq. injection Heq as Heq.
  destruct sources as [|obj sources].
  - rewrite app_nil_r in Heq. subst targets.
    specialize (Horder 0 1 (typed technique_two) (typed technique_one) 1 0).
    assert (1 ≤ 0) by (apply Horder; [lia|reflexivity..]). lia.
  - destruct (Hsources obj) as [[_ Href] _]; [left|].
    by apply Exists_nil in Href.
Qed.

End ResolverExamples.

(** ** The subgraph extractor *)

Section ExtractorFacts.

Implicit Types (objects : list pyobj) (apt_group obj : pyobj).

Lemma extract_key_Some obj k :
  extract_key obj = Some k ↔ getattr obj "id" "" = k ∧ k ≠ "".
Proof.
  unfold extract_key. case_decide as Hid.
  - split; [done|]. intros [<- ?]. done.
  - split; [intros [= <-]; done|]. by intros [-> _].
Qed.

Lemma extract_key_None obj :
  extract_key obj = None ↔ getattr obj "id" "" = "".
Proof. unfold extract_key. by case_decide. Qed.

(** The loop of [extract_all_apts] keeps first occurrences. *)
Lemma foldl_extract_step (l : list pyobj) seen unique_objects :
  (foldl extract_step (seen, unique_objects) l).2
  = unique_objects ++ first_occurrences extract_key seen l.
Proof.
  revert seen unique_objects.
  induction l as [|obj l IH]; intros seen acc; cbn.
  - by rewrite app_nil_r.
  - unfold extract_step at 2, extract_key. cbn.
    destruct (decide (getattr obj "id" "" = "")) as [Hid|Hid].
    + rewrite bool_decide_eq_false_2 by (by intros ?). cbn. apply IH.
    + rewrite bool_decide_eq_true_2 by done.
      destruct (decide (getattr obj "id" "" ∈ seen)) as [Hin|Hin].
      * rewrite bool_decide_eq_false_2 by (by intros ?). cbn. apply IH.
      * rewrite bool_decide_eq_true_2 by done. cbn.
        by rewrite IH, <- app_assoc.
Qed.

Lemma unique_objects_of_spec objects apt_group :
  unique_objects_of objects apt_group
  = first_occurrences extract_key ∅ (assembled objects apt_group).
Proof.
  unfold unique_objects_of, assembled.
  destruct (get_related_objects _ _) as [relationships targets].
  by rewrite foldl_extract_step.
Qed.

Lemma getattr_present obj name dflt dflt' :
  getattr obj name dflt ≠ dflt → getattr obj name dflt' = getattr obj name dflt.
Proof.
  destruct obj as [attrs extra|v]; cbn; [|done].
  by destruct (attrs !! name).
Qed.

Lemma elem_of_assembled_iff objects apt_group obj :
  let group_id := getattr apt_group "id" "unknown_id" in
  obj ∈ assembled objects apt_group
  ↔ obj = apt_group
    ∨ obj ∈ forward_relationships objects group_id
    ∨ obj ∈ reverse_relationships objects group_id
    ∨ obj ∈ resolved "target_ref"
              (forward_relationships objects group_id) objects
    ∨ obj ∈ resolved "source_ref"
              (reverse_relationships objects group_id) objects.
Proof.
  unfold assembled. rewrite get_related_objects_spec. cbn.
  rewrite elem_of_cons, !elem_of_app. tauto.
Qed.

Lemma elem_of_assembled objects apt_group obj :
  obj ∈ assembled objects apt_group →
  obj = apt_group ∨ obj ∈ objects.
Proof.
  rewrite elem_of_assembled_iff. cbn.
  rewrite elem_of_forward, elem_of_reverse, !elem_of_resolved. tauto.
Qed.

(** Every bundled object carries a non-empty [id], and no [id] is
    bundled twice. *)
Lemma unique_objects_of_ids objects apt_group :
  Forall (λ obj, getattr obj "id" "" ≠ "") (unique_objects_of objects apt_group)
  ∧ NoDup ((λ obj, getattr obj "id" "") <$> unique_objects_of objects apt_group).
Proof.
  rewrite unique_objects_of_spec. split.
  - apply list.Forall_forall.
    intros obj [_ (k & Hk & _)]%first_occurrences_elem.
    apply extract_key_Some in Hk as [-> ?]. done.
  - apply (NoDup_fmap_1 (λ s : string, if decide (s = "") then None else Some s)).
    rewrite <- list_fmap_compose.
    apply (first_occurrences_NoDup extract_key).
Qed.

(** An [id] met in the assembled list is bundled exactly once, with the
    first assembled object that carries it. *)
Lemma unique_objects_of_once objects apt_group obj :
  obj ∈ assembled objects apt_group → getattr obj "id" "" ≠ "" →
  ∃ l1 first l2,
    assembled objects apt_group = l1 ++ first :: l2
    ∧ getattr first "id" "" = getattr obj "id" ""
    ∧ Forall (λ z, getattr z "id" "" ≠ getattr obj "id" "") l1
    ∧ filter (λ y, getattr y "id" "" = getattr obj "id" "")
             (unique_objects_of objects apt_group) = [first].
Proof.
  intros Hin Hid. rewrite unique_objects_of_spec.
  destruct (first_occurrences_unique extract_key ∅
              (assembled objects apt_group) (getattr obj "id" ""))
    as (l1 & y & l2 & Hl & Hy & Hl1 & Hf).
  { apply not_elem_of_empty. }
  { apply list.Exists_exists. exists obj. split; [done|].
    by apply extract_key_Some. }
  exists l1, y, l2. split; [done|].
  apply extract_key_Some in Hy as [Hy _]. split; [done|]. split.
  - eapply list.Forall_impl; [exact Hl1|]. intros z Hz Heq. apply Hz.
    by apply extract_key_Some.
  - rewrite <- Hf. apply list_filter_iff. intros z.
    rewrite extract_key_Some. tauto.
Qed.

(** In a corpus whose ids identify its objects, an object of the corpus
    that is assembled for a group of the corpus is bundled. *)
Lemma unique_objects_of_keeps objects apt_group obj :
  ids_identify objects → apt_group ∈ objects →
  obj ∈ objects → obj ∈ assembled objects apt_group →
  getattr obj "id" "" ≠ "" →
  filter (λ y, getattr y "id" "" = getattr obj "id" "")
         (unique_objects_of objects apt_group) = [obj].
Proof.
  intros Hids Hgroup Hobj Hin Hid.
  destruct (unique_objects_of_once objects apt_group obj Hin Hid)
    as (l1 & y & l2 & Hl & Hy & _ & Hf).
  rewrite Hf. f_equal. apply Hids; [|done..].
  assert (Hyin : y ∈ assembled objects apt_group).
  { rewrite Hl. apply elem_of_app. right. left. }
  by apply elem_of_assembled in Hyin as [->|?].
Qed.

(** A plain value has none of the attributes the extractor reads: were one
    in the corpus, no group's bundle would hold it. *)
Lemma plain_never_bundled objects apt_group v :
  Plain v ∉ unique_objects_of objects apt_group.
Proof.
  rewrite unique_objects_of_spec. by apply first_occurrences_keyless.
Qed.

Lemma NoDup_ids_identify objects :
  NoDup ((λ obj, getattr obj "id" "") <$> objects) → ids_identify objects.
Proof.
  intros Hnd o1 o2 [i Hi]%list_elem_of_lookup [j Hj]%list_elem_of_lookup Heq.
  assert (i = j) as ->; [|congruence].
  eapply NoDup_lookup; [exact Hnd|..]; rewrite list_lookup_fmap.
  - by rewrite Hi.
  - rewrite Hj. cbn. by rewrite Heq.
Qed.

Lemma elem_of_filter_singleton (P : pyobj → Prop) `{!∀ x, Decision (P x)}
    (l : list pyobj) obj :
  filter P l = [obj] → obj ∈ l.
Proof.
  intros Hf. assert (Hin : obj ∈ filter P l) by (rewrite Hf; left).
  by apply list_elem_of_filter in Hin as [_ ?].
Qed.

(** The one element of a list that passes a filter is listed once. *)
Lemma filter_singleton_exactly_once (P : pyobj → Prop)
    `{!∀ x, Decision (P x)} (l : list pyobj) obj :
  filter P l = [obj] → exactly_once obj l.
Proof.
  intros Hf.
  assert (HP : P obj).
  { assert (Hin : obj ∈ filter P l) by (rewrite Hf; left).
    by apply list_elem_of_filter in Hin as [? _]. }
  induction l as [|y l IH]; [done|].
  rewrite filter_cons in Hf. destruct (decide (P y)) as [Hy|Hy].
  - injection Hf as -> Hrest. exists [], l.
    split; [done|]. split; [apply not_elem_of_nil|].
    intros Hin. assert (Hkept : obj ∈ filter P l)
      by (by apply list_elem_of_filter).
    rewrite Hrest in Hkept. by apply not_elem_of_nil in Hkept.
  - destruct (IH Hf) as (l1 & l2 & -> & Hl1 & Hl2).
    exists (y :: l1), l2. split; [done|]. split; [|done].
    apply not_elem_of_cons. split; [|done]. by intros ->.
Qed.

Lemma NoDup_sole_under_id objects obj :
  NoDup ((λ o, getattr o "id" "") <$> objects) → obj ∈ objects →
  sole_under_id objects obj.
Proof.
  intros Hnd Hobj other Hother Heq. by apply (NoDup_ids_identify objects).
Qed.

(** An object that is alone under its [id] in the corpus, assembled for a
    group of the corpus, is bundled, once. *)
Lemma unique_objects_of_sole objects apt_group obj :
  sole_under_id objects obj → apt_group ∈ objects →
  obj ∈ assembled objects apt_group → getattr obj "id" "" ≠ "" →
  filter (λ y, getattr y "id" "" = getattr obj "id" "")
         (unique_objects_of objects apt_group) = [obj]
  ∧ exactly_once obj (unique_objects_of objects apt_group).
Proof.
  intros Hsole Hgroup Hin Hid.
  assert (Hf : filter (λ y, getattr y "id" "" = getattr obj "id" "")
                      (unique_objects_of objects apt_group) = [obj]).
  { destruct (unique_objects_of_once objects apt_group obj Hin Hid)
      as (l1 & y & l2 & Hl & Hy & _ & Hf).
    rewrite Hf. f_equal. apply Hsole; [|done].
    assert (Hyin : y ∈ assembled objects apt_group).
    { rewrite Hl. apply elem_of_app. right. left. }
    by apply elem_of_assembled in Hyin as [->|?]. }
  split; [done|]. by eapply filter_singleton_exactly_once.
Qed.

End ExtractorFacts.

Section ExtractorPipeline.

Variable parse : json → exception + pyobj.
Variable Bundle : list pyobj → bool.
Variable writable : string → bool.

Implicit Types (objects : list pyobj) (apt_group obj : pyobj).

Lemma elem_of_extract_group objects (groups : list pyobj) entry :
  entry ∈ omap (extract_group Bundle writable objects) groups
  ↔ ∃ apt_group,
      apt_group ∈ groups
      ∧ Bundle (unique_objects_of objects apt_group) = true
      ∧ writable (filename_of apt_group) = true
      ∧ entry = (filename_of apt_group, unique_objects_of objects apt_group).
Proof.
  rewrite list_elem_of_omap. unfold extract_group.
  split; intros (apt_group & Hin & Hrest); exists apt_group.
  - destruct (Bundle _); [|done]. destruct (writable _); [|done].
    by injection Hrest as <-.
  - destruct Hrest as (-> & -> & ->). done.
Qed.

(** What [extract_all_apts] writes: one file for each intrusion-set of the
    loaded corpus whose bundle is accepted and written, holding
    [unique_objects_of] that group. *)
Lemma extract_all_apts_entries apt_dir_made file log :
  extract_all_apts parse Bundle writable apt_dir_made file = Returned log →
  ∃ objects skipped,
    load_stix_data parse file = Returned (objects, skipped)
    ∧ ∀ entry,
        entry ∈ log
        ↔ ∃ apt_group,
            apt_group ∈ objects
            ∧ getattr apt_group "type" "" = "intrusion-set"
            ∧ Bundle (unique_objects_of objects apt_group) = true
            ∧ writable (filename_of apt_group) = true
            ∧ entry = (filename_of apt_group,
                       unique_objects_of objects apt_group).
Proof.
  unfold extract_all_apts. destruct apt_dir_made; [|done].
  destruct (load_stix_data parse file) as [[objects skipped]| |]; [|done..].
  cbn. intros Hlog. exists objects, skipped. split; [done|]. intros entry.
  assert (Hgroups : ∀ g,
    g ∈ filter (λ obj, getattr obj "type" "" = "intrusion-set") objects
    ↔ g ∈ objects ∧ getattr g "type" "" = "intrusion-set").
  { intros g. rewrite list_elem_of_filter. tauto. }
  case_bool_decide as Hnil.
  - injection Hlog as <-. split; [by intros ?%not_elem_of_nil|].
    intros (g & Hg & Hty & _). exfalso.
    eapply not_elem_of_nil. rewrite <- Hnil. apply Hgroups. eauto.
  - injection Hlog as <-. rewrite elem_of_extract_group.
    split; intros (g & Hg & Hrest); exists g.
    + apply Hgroups in Hg. tauto.
    + split; [apply Hgroups|]; tauto.
Qed.


End ExtractorPipeline.

Section Symmetry.

Variable parse : json → exception + pyobj.
Variable Bundle : list pyobj → bool.
Variable writable : string → bool.

Implicit Types (objects : list pyobj) (apt_group obj rel : pyobj).

Lemma assembled_forward objects apt_group rel target :
  rel ∈ objects → target ∈ objects →
  getattr rel "type" "" = "relationship" →
  getattr rel "source_ref" "" = getattr apt_group "id" "unknown_id" →
  getattr rel "target_ref" "" = getattr target "id" "" →
  rel ∈ assembled objects apt_group ∧ target ∈ assembled objects apt_group.
Proof.
  intros Hrel Htarget Hty Hsrc Htgt.
  assert (Hfwd : rel ∈ forward_relationships objects
                         (getattr apt_group "id" "unknown_id"))
    by (by apply elem_of_forward).
  split; apply elem_of_assembled_iff; cbn.
  - right. by left.
  - right. right. right. left. apply elem_of_resolved. eauto.
Qed.

Lemma assembled_reverse objects apt_group rel source :
  rel ∈ objects → source ∈ objects →
  getattr rel "type" "" = "relationship" →
  getattr rel "target_ref" "" = getattr apt_group "id" "unknown_id" →
  getattr rel "source_ref" "" = getattr source "id" "" →
  rel ∈ assembled objects apt_group ∧ source ∈ assembled objects apt_group.
Proof.
  intros Hrel Hsource Hty Htgt Hsrc.
  assert (Hrev : rel ∈ reverse_relationships objects
                         (getattr apt_group "id" "unknown_id"))
    by (by apply elem_of_reverse).
  split; apply elem_of_assembled_iff; cbn.
  - right. right. by left.
  - right. right. right. right. apply elem_of_resolved. eauto.
Qed.

Lemma bundled objects apt_group obj :
  ids_identify objects → apt_group ∈ objects → obj ∈ objects →
  obj ∈ assembled objects apt_group → getattr obj "id" "" ≠ "" →
  obj ∈ unique_objects_of objects apt_group.
Proof.
  intros Hids Hgroup Hobj Hin Hid.
  eapply elem_of_filter_singleton.
  by apply unique_objects_of_keeps.
Qed.


End Symmetry.

Section SymmetryExamples.

Import Sample.

Example extract_allied_groups :
  (λ r, match r with
        | Returned log =>
            (λ entry : string * list pyobj,
               (entry.1, (λ obj, getattr obj "id" "") <$> entry.2)) <$> log
        | _ => []
        end)
    (extract_all_apts parse Bundle writable true (bundle_doc allied_groups))
  = [("G1_IS-1.json", ["IS-1"; "R3"; "IS-2"]);
     ("G2_IS-2.json", ["IS-2"; "R3"; "IS-1"])].
Proof. reflexivity. Qed.




End SymmetryExamples.

Section SelfLoop.

Variable parse : json → exception + pyobj.
Variable Bundle : list pyobj → bool.
Variable writable : string → bool.

Implicit Types (objects : list pyobj) (R obj : pyobj).


End SelfLoop.

Section SelfLoopExamples.

Import Sample.

Example resolve_self_loop :
  (λ p, ((λ obj, getattr obj "id" "") <$> p.1,
         (λ obj, getattr obj "id" "") <$> p.2))
    (get_related_objects (typed <$> looping_group) "IS-1")
  = (["R4"; "R4"], ["IS-1"; "IS-1"]).
Proof. reflexivity. Qed.




End SelfLoopExamples.

(** ** The streaming ingestor and the merger *)

Section MergerFacts.

Variable Bundle : list pyobj → bool.
Variable writable : string → bool.

Implicit Types (g : generator) (objects : list json) (obj : json)
  (stix_files : list stix_file) (seen : gset hkey).

Lemma generator_items_yields objects last :
  generator_items (yields objects last) = objects ++ generator_items last.
Proof. induction objects as [|obj objects IH]; cbn; by f_equal. Qed.

Lemma readable_yields objects last :
  readable (yields objects last) = readable last.
Proof. by induction objects. Qed.

(** The ingestor's loop ends with everything read so far, whether the
    stream ends or breaks with a JSON error. *)
Lemma streaming_loop_readable g objects count :
  readable g = true →
  streaming_loop g objects count = Returned (objects ++ generator_items g).
Proof.
  revert objects count. induction g as [obj rest IH| |e]; intros acc n Hg; cbn.
  - rewrite IH by done. by rewrite <- app_assoc.
  - by rewrite app_nil_r.
  - cbn in Hg. rewrite Hg. by rewrite app_nil_r.
Qed.

Lemma streaming_loop_returns g objects count result :
  streaming_loop g objects count = Returned result →
  readable g = true.
Proof.
  revert objects count. induction g as [obj rest IH| |e]; intros acc n; cbn.
  - apply IH.
  - done.
  - by destruct (is_ijson_error e).
Qed.

Lemma load_stix_objects_streaming_readable file :
  readable (file_items file) = true →
  load_stix_objects_streaming file = Returned (generator_items (file_items file)).
Proof. intros Hg. unfold load_stix_objects_streaming. by rewrite streaming_loop_readable. Qed.

Lemma load_all_readable stix_files all_objects :
  Forall (λ f, readable (file_items f) = true) stix_files →
  load_all stix_files all_objects = Returned (all_objects ++ streamed stix_files).
Proof.
  intros Hall. revert all_objects.
  induction Hall as [|f stix_files Hf _ IH]; intros acc; cbn.
  - by rewrite app_nil_r.
  - rewrite load_stix_objects_streaming_readable by done. cbn.
    rewrite IH. unfold streamed. cbn. by rewrite <- app_assoc.
Qed.

Lemma load_all_returns stix_files all_objects result :
  load_all stix_files all_objects = Returned result →
  Forall (λ f, readable (file_items f) = true) stix_files.
Proof.
  revert all_objects. induction stix_files as [|f stix_files IH]; intros acc; cbn.
  - constructor.
  - destruct (load_stix_objects_streaming f) as [objs| |] eqn:Hf; [|done..].
    cbn. intros Hrest. constructor; [|by eapply IH].
    by eapply streaming_loop_returns.
Qed.

Lemma merge_step_keyless st obj :
  mergeable obj → merge_key obj = None → merge_step st obj = Returned st.
Proof.
  destruct obj as [| | | | |fields]; try done. unfold merge_key, mergeable. cbn.
  destruct (truthy _); [|done]. intros [k ->]; done.
Qed.

(** When the merger's loop returns, it has kept first occurrences. *)
Lemma merge_loop_returns objects seen unique_objects st :
  merge_loop objects (seen, unique_objects) = Returned st →
  st.2 = unique_objects ++ first_occurrences merge_key seen objects
  ∧ Forall mergeable objects.
Proof.
  revert seen unique_objects.
  induction objects as [|obj objects IH]; intros seen acc; cbn.
  - intros [= <-]. cbn. by rewrite app_nil_r.
  - destruct obj as [| | | | |fields]; try done.
    unfold merge_key, raw_id, mergeable. cbn.
    destruct (truthy _) eqn:Htruthy.
    + destruct (py_hash _) as [k|] eqn:Hhash; [|done]. cbn.
      destruct (decide (k ∈ seen)) as [Hin|Hin].
      * rewrite bool_decide_eq_false_2 by (by intros ?). cbn.
        intros [-> Hall]%IH. split; [done|].
        constructor; [|done]. cbn. rewrite Hhash. eauto.
      * rewrite bool_decide_eq_true_2 by done. cbn.
        intros [-> Hall]%IH. split; [by rewrite <- app_assoc|].
        constructor; [|done]. cbn. rewrite Hhash. eauto.
    + cbn. intros [-> Hall]%IH. split; [done|].
      constructor; [|done]. cbn. by rewrite Htruthy.
Qed.

(** The loop returns on every list of objects it can process. *)
Lemma merge_loop_mergeable objects seen unique_objects :
  Forall mergeable objects →
  ∃ seen',
    merge_loop objects (seen, unique_objects)
    = Returned (seen', unique_objects ++ first_occurrences merge_key seen objects).
Proof.
  intros Hall. revert seen unique_objects.
  induction Hall as [|obj objects Hobj _ IH]; intros seen acc; cbn.
  - exists seen. by rewrite app_nil_r.
  - destruct obj as [| | | | |fields]; try done.
    unfold merge_key, raw_id, mergeable in *. cbn in *.
    destruct (truthy _) eqn:Htruthy.
    + destruct Hobj as [k Hhash]; [done|]. rewrite Hhash. cbn.
      destruct (decide (k ∈ seen)) as [Hin|Hin].
      * rewrite bool_decide_eq_false_2 by (by intros ?). cbn. apply IH.
      * rewrite bool_decide_eq_true_2 by done. cbn.
        destruct (IH ({[k]} ∪ seen) (acc ++ [JObj fields])) as [seen' ->].
        exists seen'. by rewrite <- app_assoc.
    + cbn. apply IH.
Qed.

End MergerFacts.

Section MergerPipeline.

Variable Bundle : list pyobj → bool.
Variable writable : string → bool.

Implicit Types (stix_dir : list stix_file) (merged_file : string).

Lemma merge_all_copies stix_dir merged_file f :
  get_stix_files stix_dir merged_file = [f] →
  readable (file_items f) = true → writable merged_file = true →
  merge_all_stix_files Bundle writable stix_dir merged_file
  = Returned (Copied f).
Proof.
  intros Hfiles Hf Hw. unfold merge_all_stix_files. rewrite Hfiles.
  rewrite load_all_readable by (by constructor). cbn. by rewrite Hw.
Qed.

Lemma merge_all_rebundles stix_dir merged_file :
  let stix_files := get_stix_files stix_dir merged_file in
  let unique_objects := first_occurrences merge_key ∅ (streamed stix_files) in
  2 ≤ length stix_files →
  Forall (λ f, readable (file_items f) = true) stix_files →
  Forall mergeable (streamed stix_files) →
  Bundle (Plain <$> unique_objects) = true →
  writable merged_file = true →
  merge_all_stix_files Bundle writable stix_dir merged_file
  = Returned (Rebundled unique_objects).
Proof.
  intros stix_files unique_objects Hlen Hread Hmerge Hb Hw.
  unfold merge_all_stix_files. fold stix_files.
  rewrite load_all_readable by done. cbn.
  destruct stix_files as [|f1 [|f2 rest]] eqn:Hfiles; cbn in Hlen; [lia..|].
  destruct (merge_loop_mergeable (streamed (f1 :: f2 :: rest)) ∅ [] Hmerge)
    as [seen' Hloop].
  rewrite Hloop. cbn -[streamed]. unfold write_bundle.
  unfold unique_objects in Hb. by rewrite Hb, Hw.
Qed.

(** The three ways [merge_all_stix_files] returns. *)
Lemma merge_all_returns stix_dir merged_file result :
  merge_all_stix_files Bundle writable stix_dir merged_file = Returned result →
  let stix_files := get_stix_files stix_dir merged_file in
  (stix_files = [] ∧ result = NoOutput)
  ∨ (∃ f, stix_files = [f] ∧ result = Copied f)
  ∨ (2 ≤ length stix_files
     ∧ Forall mergeable (streamed stix_files)
     ∧ result = Rebundled (first_occurrences merge_key ∅ (streamed stix_files))).
Proof.
  unfold merge_all_stix_files.
  destruct (get_stix_files stix_dir merged_file) as [|f1 [|f2 rest]] eqn:Hfiles.
  - intros [= <-]. by left.
  - destruct (load_all [f1] []); [|done..]. cbn.
    destruct (writable merged_file); [|done]. intros [= <-]. right. left. eauto.
  - destruct (load_all (f1 :: f2 :: rest) []) as [all_objects| |] eqn:Hload;
      [|done..].
    pose proof (load_all_returns _ _ _ Hload) as Hread.
    rewrite load_all_readable in Hload by done. injection Hload as <-.
    cbn -[streamed].
    destruct (merge_loop _ _) as [[seen' unique_objects]| |] eqn:Hloop; [|done..].
    apply merge_loop_returns in Hloop as [Hu Hall]. cbn in Hu. subst.
    cbn -[streamed]. unfold write_bundle.
    destruct (Bundle _); [|done]. destruct (writable merged_file); [|done].
    intros [= <-]. right. right. cbn -[streamed]. split; [lia|]. done.
Qed.

Lemma merge_key_truthy obj k :
  merge_key obj = Some k →
  truthy (raw_id obj) = true ∧ py_hash (raw_id obj) = Some k.
Proof. unfold merge_key. by destruct (truthy _). Qed.

Lemma merge_key_str obj X :
  X ≠ "" → merge_key obj = Some (HStr X) ↔ raw_id obj = JStr X.
Proof.
  intros HX. unfold merge_key. split.
  - destruct (raw_id obj) as [|[]| | | |]; cbn; try done;
      case_bool_decide; try done. by intros [= ->].
  - intros ->. cbn. by rewrite bool_decide_eq_true_2.
Qed.

(** No id is kept twice by the merger, be it under Python's equality of
    ids. *)
Lemma merged_ids_NoDup seen (objects : list json) :
  NoDup (raw_id <$> first_occurrences merge_key seen objects).
Proof.
  apply (NoDup_fmap_1 (λ v, if truthy v then py_hash v else None)).
  rewrite <- list_fmap_compose.
  apply (first_occurrences_NoDup merge_key).
Qed.

End MergerPipeline.

(** ** What the engine writes *)

Section WrittenBundles.

Variable parse : json → exception + pyobj.
Variable Bundle : list pyobj → bool.
Variable writable : string → bool.
Variable serialize : list json → string.

Implicit Types (stix_dir : list stix_file) (merged_file : string)
  (objects : list pyobj) (apt_group obj : pyobj).

(** C3, as amended: every file that [extract_all_apts] writes holds the
    bundle of an intrusion-set of the loaded corpus, and no two objects
    of that bundle share an [id]. Every [id] met while assembling the
    group is carried by exactly one object of the bundle, the first one
    assembled under it. In particular, for an object that two distinct
    relationships link to the group, the bundle holds exactly one object
    under its [id]: the object itself, listed once, when no other object
    of the corpus carries that [id]. No two objects share an [id] either
    in the bundle written by [merge_all_stix_files] when there are two or
    more candidate files. When there is a single candidate file the
    output is a copy of that file and holds the objects of the candidate
    as they are. *)
Theorem written_bundles_have_unique_ids :
  (∀ apt_dir_made file objects skipped log entry,
     load_stix_data parse file = Returned (objects, skipped) →
     extract_all_apts parse Bundle writable apt_dir_made file = Returned log →
     entry ∈ log →
     ∃ apt_group,
       apt_group ∈ objects
       ∧ getattr apt_group "type" "" = "intrusion-set"
       ∧ entry = (filename_of apt_group, unique_objects_of objects apt_group)
       ∧ NoDup ((λ obj, getattr obj "id" "") <$> entry.2)
       ∧ (∀ obj,
            obj ∈ assembled objects apt_group →
            getattr obj "id" "" ≠ "" →
            ∃ before first after,
              assembled objects apt_group = before ++ first :: after
              ∧ getattr first "id" "" = getattr obj "id" ""
              ∧ Forall (λ z, getattr z "id" "" ≠ getattr obj "id" "") before
              ∧ filter (λ y, getattr y "id" "" = getattr obj "id" "") entry.2
                = [first])
       ∧ (∀ R1 R2 T,
            R1 ∈ objects → R2 ∈ objects → T ∈ objects → R1 ≠ R2 →
            links (getattr apt_group "id" "unknown_id") R1 T →
            links (getattr apt_group "id" "unknown_id") R2 T →
            getattr T "id" "" ≠ "" →
            (∃ kept,
               filter (λ y, getattr y "id" "" = getattr T "id" "") entry.2
               = [kept])
            ∧ (sole_under_id objects T → exactly_once T entry.2)))
  ∧ (∀ stix_dir merged_file result,
       merge_all_stix_files Bundle writable stix_dir merged_file
       = Returned result →
       2 ≤ length (get_stix_files stix_dir merged_file) →
       NoDup (raw_id <$> output_objects result))
  ∧ (∀ stix_dir merged_file result f,
       merge_all_stix_files Bundle writable stix_dir merged_file
       = Returned result →
       get_stix_files stix_dir merged_file = [f] →
       output_objects result = generator_items (file_items f)).
Proof.
  split; [|split].
  - intros apt_dir_made file objects skipped log entry Hload Hrun Hin.
    destruct (extract_all_apts_entries _ _ _ _ _ _ Hrun)
      as (objects' & skipped' & Hload' & Hlog).
    rewrite Hload in Hload'. injection Hload' as <- <-.
    destruct (proj1 (Hlog entry) Hin)
      as (apt_group & Hgroup & Hty & _ & _ & Hentry).
    exists apt_group. do 3 (split; [done|]).
    rewrite Hentry. cbn.
    split; [apply unique_objects_of_ids|]. split.
    + intros obj Hobj Hid. by apply unique_objects_of_once.
    + intros R1 R2 T HR1 _ HT _ [Hrel Hends] _ Hid.
      assert (Hassembled : T ∈ assembled objects apt_group).
      { destruct Hends as [[Hsrc Htgt]|[Htgt Hsrc]].
        - by destruct (assembled_forward objects apt_group R1 T).
        - by destruct (assembled_reverse objects apt_group R1 T). }
      split.
      * destruct (unique_objects_of_once objects apt_group T Hassembled Hid)
          as (_ & kept & _ & _ & _ & _ & Hf).
        eauto.
      * intros Hsole. by apply unique_objects_of_sole.
  - intros stix_dir merged_file result Hrun Hlen.
    apply merge_all_returns in Hrun as [[Hnil _]|[(f & Hone & _)|(_ & _ & ->)]].
    + rewrite Hnil in Hlen. cbn in Hlen. lia.
    + rewrite Hone in Hlen. cbn in Hlen. lia.
    + apply merged_ids_NoDup.
  - intros stix_dir merged_file result f Hrun Hone.
    apply merge_all_returns in Hrun as [[Hnil _]|[(f' & Hone' & ->)|(Hlen & _)]].
    + congruence.
    + rewrite Hone in Hone'. by injection Hone' as ->.
    + rewrite Hone in Hlen. cbn in Hlen. lia.
Qed.

(** C4: when exactly one candidate file exists, can be read to its end
    (or up to a JSON error), and the canonical path can be written,
    [merge_all_stix_files] leaves at the canonical path the very bytes of
    that candidate: a copy, which no serializer has touched. *)
Theorem single_candidate_is_copied stix_dir merged_file f :
  get_stix_files stix_dir merged_file = [f] →
  readable (file_items f) = true →
  writable merged_file = true →
  ∃ result,
    merge_all_stix_files Bundle writable stix_dir merged_file = Returned result
    ∧ result = Copied f
    ∧ output_bytes serialize result = Some (file_bytes f).
Proof.
  intros Hone Hread Hw. exists (Copied f).
  split; [by apply merge_all_copies|done].
Qed.

End WrittenBundles.

Section MergeClaims.

Variable parse : json → exception + pyobj.
Variable Bundle : list pyobj → bool.
Variable writable : string → bool.

Implicit Types (stix_dir : list stix_file) (merged_file X : string)
  (obj : json).

(** C5: with two or more candidate files that can be read and whose
    objects the loop can process, and a merged bundle that is accepted
    and written, [merge_all_stix_files] writes a selection of the
    streamed objects in which every id [X] (a non-empty string) met in
    the candidates is carried by exactly one object: the first object
    with that id in the order of the files and, within a file, of the
    document. That object is kept as it stands; later ones are left out
    whole. ([merge_key kept = Some (HStr X)] says that the id of [kept]
    is [X].) *)
Theorem merge_keeps_first_occurrence stix_dir merged_file :
  let stix_files := get_stix_files stix_dir merged_file in
  let all_objects := streamed stix_files in
  2 ≤ length stix_files →
  Forall (λ f, readable (file_items f) = true) stix_files →
  Forall mergeable all_objects →
  Bundle (Plain <$> first_occurrences merge_key ∅ all_objects) = true →
  writable merged_file = true →
  ∃ merged,
    merge_all_stix_files Bundle writable stix_dir merged_file
    = Returned (Rebundled merged)
    ∧ merged `sublist_of` all_objects
    ∧ ∀ X obj,
        X ≠ "" → obj ∈ all_objects → raw_id obj = JStr X →
        ∃ before first after,
          all_objects = before ++ first :: after
          ∧ raw_id first = JStr X
          ∧ Forall (λ earlier, raw_id earlier ≠ JStr X) before
          ∧ filter (λ kept, merge_key kept = Some (HStr X)) merged = [first].
Proof.
  intros stix_files all_objects Hlen Hread Hmerge Hb Hw.
  exists (first_occurrences merge_key ∅ all_objects).
  split; [by apply merge_all_rebundles|].
  split; [apply first_occurrences_sublist|].
  intros X obj HX Hin Hid.
  destruct (first_occurrences_unique merge_key ∅ all_objects (HStr X))
    as (before & first & after & Hl & Hfirst & Hbefore & Hf).
  { apply not_elem_of_empty. }
  { apply list.Exists_exists. exists obj. split; [done|].
    by apply merge_key_str. }
  exists before, first, after. split; [done|].
  split; [by apply (merge_key_str first X HX)|]. split; [|done].
  eapply list.Forall_impl; [exact Hbefore|].
  intros earlier Hne Heq. apply Hne. by apply merge_key_str.
Qed.

(** C8: when the parser breaks with a JSON error after yielding some
    objects of a file, [load_stix_objects_streaming] returns exactly
    these objects and raises nothing; the merger goes on with the files
    that follow, and merges what all the files yielded. *)
Theorem streaming_keeps_objects_before_failure :
  (∀ file objects e,
     file_items file = yields objects (GenRaise e) →
     is_ijson_error e = true →
     load_stix_objects_streaming file = Returned objects)
  ∧ (∀ (before after : list stix_file) bad objects e,
       file_items bad = yields objects (GenRaise e) →
       is_ijson_error e = true →
       Forall (λ f, readable (file_items f) = true) (before ++ after) →
       load_all (before ++ bad :: after) []
       = Returned (streamed before ++ objects ++ streamed after)
       ∧ ∀ stix_dir merged_file,
           let all_objects := streamed before ++ objects ++ streamed after in
           let unique_objects := first_occurrences merge_key ∅ all_objects in
           get_stix_files stix_dir merged_file = before ++ bad :: after →
           1 ≤ length (before ++ after) →
           Forall mergeable all_objects →
           Bundle (Plain <$> unique_objects) = true →
           writable merged_file = true →
           merge_all_stix_files Bundle writable stix_dir merged_file
           = Returned (Rebundled unique_objects)).
Proof.
  assert (Hitems : ∀ objects e,
    generator_items (yields objects (GenRaise e)) = objects).
  { intros objects e. rewrite generator_items_yields. apply app_nil_r. }
  split.
  - intros file objects e Hfile He.
    rewrite load_stix_objects_streaming_readable.
    + by rewrite Hfile, Hitems.
    + by rewrite Hfile, readable_yields.
  - intros before after bad objects e Hbad He Hread.
    apply Forall_app in Hread as [Hbefore Hafter].
    assert (Hall : Forall (λ f, readable (file_items f) = true)
                     (before ++ bad :: after)).
    { apply Forall_app. split; [done|]. constructor; [|done].
      by rewrite Hbad, readable_yields. }
    assert (Hstreamed : streamed (before ++ bad :: after)
                        = streamed before ++ objects ++ streamed after).
    { unfold streamed. rewrite fmap_app, concat_app. cbn.
      by rewrite Hbad, Hitems. }
    split.
    + rewrite load_all_readable by done. by rewrite Hstreamed.
    + intros stix_dir merged_file all_objects unique_objects
        Hfiles Hlen Hmerge Hb Hw.
      unfold unique_objects, all_objects in *. rewrite <- Hstreamed in *.
      rewrite <- Hfiles in *.
      apply merge_all_rebundles; try done.
      rewrite Hfiles, length_app. cbn. rewrite length_app in Hlen. lia.
Qed.

(** C9: an object whose [id] is missing or empty is left out quietly. In
    extraction no bundled object has an empty or missing [id], so such
    an object, the group itself included, is not in the group's bundle.
    In a merge of several files the loop passes over a [dict] whose [id]
    is missing or the empty string without changing what it has seen or
    kept, and every object of the merged bundle has an [id] that counts
    as true. *)
Theorem objects_without_id_are_dropped :
  (∀ (objects : list pyobj) apt_group o,
     getattr o "id" "" = "" → o ∉ unique_objects_of objects apt_group)
  ∧ (∀ apt_dir_made file log entry o,
       extract_all_apts parse Bundle writable apt_dir_made file
       = Returned log →
       entry ∈ log → o ∈ entry.2 → getattr o "id" "" ≠ "")
  ∧ (∀ st fields,
       dict_get fields "id" = None ∨ dict_get fields "id" = Some (JStr "") →
       merge_step st (JObj fields) = Returned st)
  ∧ (∀ stix_dir merged_file merged obj,
       merge_all_stix_files Bundle writable stix_dir merged_file
       = Returned (Rebundled merged) →
       obj ∈ merged →
       truthy (raw_id obj) = true
       ∧ raw_id obj ≠ JNull ∧ raw_id obj ≠ JStr "").
Proof.
  split; [|split; [|split]].
  - intros objects apt_group o Hid. rewrite unique_objects_of_spec.
    apply first_occurrences_keyless. by apply extract_key_None.
  - intros apt_dir_made file log entry o Hrun Hin Ho.
    destruct (extract_all_apts_entries _ _ _ _ _ _ Hrun)
      as (objects & skipped & _ & Hlog).
    destruct (proj1 (Hlog entry) Hin) as (apt_group & _ & _ & _ & _ & Hentry).
    rewrite Hentry in Ho. cbn in Ho.
    destruct (unique_objects_of_ids objects apt_group) as [Hall _].
    by apply (proj1 (list.Forall_forall _ _) Hall).
  - intros st fields [Hid|Hid]; cbn; by rewrite Hid.
  - intros stix_dir merged_file merged obj Hrun Hin.
    apply merge_all_returns in Hrun
      as [[_ [=]]|[(f & _ & [=])|(_ & _ & [= ->])]].
    apply first_occurrences_elem in Hin as [_ (k & Hk & _)].
    apply merge_key_truthy in Hk as [Ht _].
    split; [done|]. split; intros Heq; by rewrite Heq in Ht.
Qed.

End MergeClaims.

Section MergeExamples.

Import Sample.

(** The merge scenario of the specification: files A (X, Y) and B (Y, Z)
    give X, Y, Z, with Y as file A has it. *)
Example merge_scenario :
  merge_all_stix_files Bundle writable [file_a; canonical; file_b]
    "stix_full.json"
  = Returned (Rebundled [x_first; y_first; z_first]).
Proof. reflexivity. Qed.

Example merge_single_file :
  merge_all_stix_files Bundle writable [repeating_file; canonical]
    "stix_full.json"
  = Returned (Copied repeating_file)
  ∧ output_objects (Copied repeating_file) = [x_first; x_second].
Proof. split; reflexivity. Qed.

(** C3, counterexample: a single candidate file that lists the id [X]
    twice is copied as it is, so the canonical bundle holds two objects
    with the id [X]. *)
Lemma copied_bundle_repeats_id :
  ¬ bundles_have_unique_ids parse Bundle writable (bundle_doc [])
      [repeating_file; canonical] "stix_full.json".
Proof.
  intros [_ Hmerge].
  specialize (Hmerge (Copied repeating_file) eq_refl).
  apply list.NoDup_cons in Hmerge as [Hnotin _]. apply Hnotin. left.
Qed.

(** A technique that two relationships link to the group is bundled
    once; with an older object listed before it under its id, the bundle
    holds the older object. *)
Example bundle_of_twice_reached :
  unique_objects_of (typed <$> twice_reached) (typed group_one)
  = [typed group_one; typed uses_x_one; typed uses_x_two; typed x_second]
  ∧ unique_objects_of (typed <$> twice_reached_rival) (typed group_one)
    = [typed group_one; typed uses_x_one; typed uses_x_two; typed x_first].
Proof. split; reflexivity. Qed.

Lemma written_bundles_have_unique_ids_witness :
  (NoDup ((λ obj, getattr obj "id" "")
            <$> unique_objects_of (typed <$> twice_reached) (typed group_one))
   ∧ exactly_once (typed x_second)
       (unique_objects_of (typed <$> twice_reached) (typed group_one)))
  ∧ NoDup (raw_id <$> [x_first; y_first; z_first])
  ∧ output_objects (Copied repeating_file)
    = generator_items (file_items repeating_file).
Proof.
  destruct (written_bundles_have_unique_ids parse Bundle writable)
    as (Hextract & Hmerge & Hcopy).
  split; [|split].
  - destruct (Hextract true (bundle_doc twice_reached)
                (typed <$> twice_reached) 0
                [("G1_IS-1.json",
                  unique_objects_of (typed <$> twice_reached)
                    (typed group_one))]
                ("G1_IS-1.json",
                 unique_objects_of (typed <$> twice_reached)
                   (typed group_one)))
      as (apt_group & Hgroup & Hty & _ & Hnd & _ & Htwice).
    + reflexivity.
    + reflexivity.
    + left.
    + split; [exact Hnd|].
      assert (apt_group = typed group_one) as ->.
      { change (typed <$> twice_reached)
          with [typed group_one; typed x_second;
                typed uses_x_one; typed uses_x_two] in Hgroup.
        repeat (apply elem_of_cons in Hgroup as [->|Hgroup];
                [first [done|by vm_compute in Hty]|]).
        by apply not_elem_of_nil in Hgroup. }
      destruct (Htwice (typed uses_x_one) (typed uses_x_two) (typed x_second))
        as [_ Honce].
      * do 2 right. by left.
      * do 3 right. by left.
      * right. by left.
      * intros Heq. apply (f_equal (λ o, getattr o "id" "")) in Heq.
        by vm_compute in Heq.
      * split; [reflexivity|]. left. split; reflexivity.
      * split; [reflexivity|]. left. split; reflexivity.
      * by vm_compute.
      * apply Honce, NoDup_sole_under_id; [|right; by left].
        apply (bool_decide_unpack _). by vm_compute.
  - apply (Hmerge [file_a; canonical; file_b] "stix_full.json"
             (Rebundled [x_first; y_first; z_first])).
    + reflexivity.
    + vm_compute. lia.
  - apply (Hcopy [repeating_file; canonical] "stix_full.json"
             (Copied repeating_file) repeating_file); reflexivity.
Defined.

Lemma single_candidate_is_copied_witness :
  ∃ result,
    merge_all_stix_files Bundle writable [file_a; canonical] "stix_full.json"
    = Returned result
    ∧ result = Copied file_a
    ∧ output_bytes serialize result = Some (file_bytes file_a).
Proof.
  apply (single_candidate_is_copied Bundle writable serialize
           [file_a; canonical] "stix_full.json" file_a); reflexivity.
Defined.

Lemma merge_keeps_first_occurrence_witness :
  ∃ merged,
    merge_all_stix_files Bundle writable [file_a; canonical; file_b]
      "stix_full.json"
    = Returned (Rebundled merged)
    ∧ merged `sublist_of` [x_first; y_first; y_second; z_first]
    ∧ ∀ X obj,
        X ≠ "" → obj ∈ [x_first; y_first; y_second; z_first] →
        raw_id obj = JStr X →
        ∃ before first after,
          [x_first; y_first; y_second; z_first] = before ++ first :: after
          ∧ raw_id first = JStr X
          ∧ Forall (λ earlier, raw_id earlier ≠ JStr X) before
          ∧ filter (λ kept, merge_key kept = Some (HStr X)) merged = [first].
Proof.
  apply (merge_keeps_first_occurrence Bundle writable
           [file_a; canonical; file_b] "stix_full.json").
  - vm_compute. lia.
  - repeat constructor.
  - repeat (constructor; [cbn; intros _; by eexists|]). constructor.
  - reflexivity.
  - reflexivity.
Defined.

Example streaming_cut_file :
  load_stix_objects_streaming file_cut = Returned [x_first; y_first].
Proof. reflexivity. Qed.

Lemma streaming_keeps_objects_before_failure_witness :
  load_stix_objects_streaming file_cut = Returned [x_first; y_first]
  ∧ load_all ([] ++ file_cut :: [file_b]) []
    = Returned (streamed [] ++ [x_first; y_first] ++ streamed [file_b])
  ∧ merge_all_stix_files Bundle writable [file_cut; canonical; file_b]
      "stix_full.json"
    = Returned (Rebundled [x_first; y_first; z_first]).
Proof.
  destruct (streaming_keeps_objects_before_failure Bundle writable)
    as [Hone Hall].
  split.
  - by apply (Hone file_cut [x_first; y_first] IncompleteJSONError).
  - destruct (Hall [] [file_b] file_cut [x_first; y_first]
                IncompleteJSONError) as [Hload Hmerge].
    + reflexivity.
    + reflexivity.
    + repeat constructor.
    + split; [exact Hload|].
      apply (Hmerge [file_cut; canonical; file_b] "stix_full.json").
      * reflexivity.
      * cbn. lia.
      * repeat (constructor; [cbn; intros _; by eexists|]). constructor.
      * reflexivity.
      * reflexivity.
Defined.

Example merge_drops_objects_without_id :
  merge_all_stix_files Bundle writable [file_c; file_d; canonical]
    "stix_full.json"
  = Returned (Rebundled [x_first]).
Proof. reflexivity. Qed.

Lemma objects_without_id_are_dropped_witness :
  (unnamed_group ∉ unique_objects_of [unnamed_group] unnamed_group)
  ∧ merge_step ({[HStr "X"]}, [x_first]) anonymous
    = Returned ({[HStr "X"]}, [x_first])
  ∧ merge_step ({[HStr "X"]}, [x_first]) empty_id
    = Returned ({[HStr "X"]}, [x_first])
  ∧ truthy (raw_id x_first) = true.
Proof.
  destruct (objects_without_id_are_dropped parse Bundle writable)
    as (Hextract & _ & Hstep & Hmerged).
  split; [|split; [|split]].
  - by apply Hextract.
  - apply Hstep. by left.
  - apply Hstep. by right.
  - apply (Hmerged [file_c; file_d; canonical] "stix_full.json" [x_first]).
    + reflexivity.
    + left.
Defined.

End MergeExamples.

(** * Further properties of the code *)

(** ** The loader's report *)

Section LoaderReport.

Variable parse : json → exception + pyobj.

Lemma load_stix_data_returns file objs skipped :
  load_stix_data parse file = Returned (objs, skipped) →
  ∃ fields raw,
    file = ReadValue (JObj fields)
    ∧ py_iter (default (JArr []) (dict_get fields "objects")) = Returned raw
    ∧ objs = omap (kept parse) raw
    ∧ skipped = length (filter (λ obj, kept parse obj = None) raw).
Proof.
  destruct file as [e|[| | | | |fields]]; try done; [by destruct e|].
  cbn. destruct (py_iter _) as [raw| |] eqn:Hiter; [|done..]. cbn.
  rewrite load_loop_spec. intros [= <- <-]. by exists fields, raw.
Qed.

(** X1: The closing report accounts for every object: those returned and
    those skipped add up to the objects walked, and the objects returned
    are the kept ones in the order of the file. *)
Theorem load_stix_data_accounts_for_every_object file objs skipped :
  load_stix_data parse file = Returned (objs, skipped) →
  ∃ fields raw,
    file = ReadValue (JObj fields)
    ∧ py_iter (default (JArr []) (dict_get fields "objects")) = Returned raw
    ∧ length objs + skipped = length raw
    ∧ objs = omap (kept parse) raw.
Proof.
  intros (fields & raw & -> & Hiter & -> & ->)%load_stix_data_returns.
  exists fields, raw. do 2 (split; [done|]). split; [|done].
  rewrite skipped_count. pose proof (length_omap_kept parse raw). lia.
Qed.

(** X2: Only typed objects that carry a [type] leave the loader. An object
    that [parse] accepts without giving it a [type] attribute, as it does
    when it hands back the [dict] of a type it does not know, is not
    returned and is counted as skipped though parsing did not fail. *)
Theorem load_stix_data_returns_typed_objects file objs skipped :
  load_stix_data parse file = Returned (objs, skipped) →
  Forall (λ o, hasattr o "type" = true ∧ ∃ attrs extra, o = StixObj attrs extra)
         objs
  ∧ ∀ fields (raw : list json) obj parsed,
      file = ReadValue (JObj fields) →
      dict_get fields "objects" = Some (JArr raw) →
      obj ∈ raw → parse obj = inr parsed → hasattr parsed "type" = false →
      (parsed ∉ objs) ∧ 1 ≤ skipped.
Proof.
  intros Hload.
  destruct (load_stix_data_returns _ _ _ Hload)
    as (fields & raw & -> & Hiter & -> & ->).
  assert (Htyped : ∀ o, o ∈ omap (kept parse) raw → hasattr o "type" = true).
  { intros o (obj & _ & Hk)%list_elem_of_omap. by eapply kept_has_type. }
  split.
  - apply list.Forall_forall. intros o Ho. split; [by apply Htyped|].
    apply list_elem_of_omap in Ho as (obj & _ & Hk). by eapply kept_is_typed.
  - intros fields' raw' obj parsed [= <-] Hget Hin Hparse Hty.
    rewrite Hget in Hiter. injection Hiter as <-.
    split; [intros Ho%Htyped; congruence|].
    assert (Hobj : obj ∈ filter (λ obj, kept parse obj = None) raw').
    { apply list_elem_of_filter. split; [|done].
      unfold kept. by rewrite Hparse, Hty. }
    destruct (filter _ raw'); [by apply not_elem_of_nil in Hobj|cbn; lia].
Qed.

End LoaderReport.

Section LoaderReportExamples.

Import Sample.

Lemma load_stix_data_accounts_for_every_object_witness :
  ∃ fields raw,
    ReadValue (JObj two_objects_doc) = ReadValue (JObj fields)
    ∧ py_iter (default (JArr []) (dict_get fields "objects")) = Returned raw
    ∧ length [typed group_one] + 1 = length raw
    ∧ [typed group_one] = omap (kept parse) raw.
Proof.
  apply (load_stix_data_accounts_for_every_object parse
           (ReadValue (JObj two_objects_doc)) [typed group_one] 1).
  reflexivity.
Defined.

Lemma load_stix_data_returns_typed_objects_witness :
  Forall (λ o, hasattr o "type" = true ∧ ∃ attrs extra, o = StixObj attrs extra)
         [typed group_one]
  ∧ (Plain tactic ∉ [typed group_one]) ∧ 1 ≤ 1.
Proof.
  destruct (load_stix_data_returns_typed_objects parse
              (bundle_doc [group_one; tactic]) [typed group_one] 1 eq_refl)
    as [Hall Hskip].
  split; [exact Hall|].
  apply (Hskip [("type", JStr "bundle"); ("objects", JArr [group_one; tactic])]
           [group_one; tactic] tactic (Plain tactic));
    try reflexivity.
  apply list_elem_of_further, list_elem_of_here.
Defined.

End LoaderReportExamples.

(** ** What the resolver reaches *)

Section ResolverReach.

Implicit Types (objects : list pyobj) (source_id : string).

Lemma filter_none {A} (P : A → Prop) `{!∀ x, Decision (P x)} (l : list A) :
  Forall (λ x, ¬ P x) l → filter P l = [].
Proof. induction 1; [done|]. by rewrite filter_cons_False. Qed.

Lemma unmentioned_related objects source_id :
  Forall (λ obj, ¬ mentions source_id obj) objects →
  get_related_objects objects source_id = ([], []).
Proof.
  intros Hnone. rewrite get_related_objects_spec.
  assert (forward_relationships objects source_id = []) as ->.
  { apply filter_none. eapply list.Forall_impl; [exact Hnone|].
    unfold mentions. intros obj Hobj [? ?]. apply Hobj. tauto. }
  assert (reverse_relationships objects source_id = []) as ->.
  { apply filter_none. eapply list.Forall_impl; [exact Hnone|].
    unfold mentions. intros obj Hobj [? ?]. apply Hobj. tauto. }
  unfold resolved. cbn.
  rewrite !filter_none; [done|..]; apply list.Forall_forall;
    intros obj _ Href; by apply Exists_nil in Href.
Qed.

(** X3: The resolver finds nothing for an id, neither relationship nor
    related object, exactly when no relationship of the object list names
    that id as its source or as its target. *)
Theorem nothing_related_iff_unmentioned objects source_id :
  get_related_objects objects source_id = ([], [])
  ↔ Forall (λ obj, ¬ mentions source_id obj) objects.
Proof.
  split; [|apply unmentioned_related].
  rewrite get_related_objects_spec. intros [= Hrels _].
  apply app_eq_nil in Hrels as [Hf Hr].
  apply list.Forall_forall. intros obj Hin [Hty [Hs|Ht]].
  - assert (Hobj : obj ∈ forward_relationships objects source_id)
      by (by apply elem_of_forward).
    rewrite Hf in Hobj. by apply not_elem_of_nil in Hobj.
  - assert (Hobj : obj ∈ reverse_relationships objects source_id)
      by (by apply elem_of_reverse).
    rewrite Hr in Hobj. by apply not_elem_of_nil in Hobj.
Qed.

End ResolverReach.

(** ** The bundle of a group *)

Section FirstOccurrencesMore.

Context {A K : Type} `{Countable K} (key : A → option K).

Implicit Types (seen : gset K) (l : list A) (k : K).

Lemma first_occurrences_new seen x l k :
  key x = Some k → k ∉ seen →
  first_occurrences key seen (x :: l)
  = x :: first_occurrences key ({[k]} ∪ seen) l.
Proof. intros Hk Hnew. cbn. rewrite Hk. by rewrite decide_False. Qed.

End FirstOccurrencesMore.

Section GroupBundle.

Implicit Types (objects : list pyobj) (apt_group obj : pyobj).

(** X4: A group that carries an [id] opens its own bundle; what follows it
    are objects of the corpus under other ids. *)
Theorem bundle_starts_with_its_group objects apt_group :
  getattr apt_group "id" "" ≠ "" →
  ∃ rest,
    unique_objects_of objects apt_group = apt_group :: rest
    ∧ Forall (λ obj, obj ∈ objects
                     ∧ getattr obj "id" "" ≠ getattr apt_group "id" "") rest.
Proof.
  intros Hid. rewrite unique_objects_of_spec.
  pose proof (elem_of_assembled objects apt_group) as Hfrom.
  unfold assembled in *.
  remember (get_related_objects objects (getattr apt_group "id" "unknown_id"))
    as related eqn:Hrelated.
  clear Hrelated.
  change ([apt_group] ++ related.1 ++ related.2)
    with (apt_group :: (related.1 ++ related.2)) in *.
  rewrite (first_occurrences_new extract_key ∅ apt_group _
             (getattr apt_group "id" ""));
    [|by apply extract_key_Some|apply not_elem_of_empty].
  eexists. split; [done|].
  apply list.Forall_forall.
  intros obj [Hin (k & Hk & Hnew)]%first_occurrences_elem.
  apply extract_key_Some in Hk as [<- _].
  assert (Hne : getattr obj "id" "" ≠ getattr apt_group "id" "").
  { intros Heq. apply Hnew. rewrite Heq.
    apply elem_of_union. left. by apply elem_of_singleton. }
  split; [|done].
  destruct (Hfrom obj) as [->|?]; [by right|done..].
Qed.

(** X5: A group with an [id] that no relationship names is bundled alone. *)
Theorem unmentioned_group_is_bundled_alone objects apt_group :
  getattr apt_group "id" "" ≠ "" →
  Forall (λ obj, ¬ mentions (getattr apt_group "id" "") obj) objects →
  unique_objects_of objects apt_group = [apt_group].
Proof.
  intros Hid Hnone. rewrite unique_objects_of_spec. unfold assembled.
  rewrite (getattr_present apt_group "id" "" "unknown_id" Hid).
  rewrite unmentioned_related by done.
  change ([apt_group] ++ ([], []).1 ++ ([] : list pyobj, [] : list pyobj).2)
    with [apt_group].
  by rewrite (first_occurrences_new extract_key ∅ apt_group []
                (getattr apt_group "id" ""));
    [|apply extract_key_Some|apply not_elem_of_empty].
Qed.

(** X6: A bundle reaches one relationship deep and no further: apart from
    the group, it holds only relationships that name the group's id at
    one end, and objects whose id such a relationship names at the other
    end. *)
Theorem bundle_holds_one_hop_only objects apt_group obj :
  obj ∈ unique_objects_of objects apt_group →
  obj = apt_group
  ∨ (obj ∈ objects ∧ mentions (getattr apt_group "id" "unknown_id") obj)
  ∨ (obj ∈ objects
     ∧ ∃ rel,
         rel ∈ objects ∧ getattr rel "type" "" = "relationship"
         ∧ ((getattr rel "source_ref" "" = getattr apt_group "id" "unknown_id"
             ∧ getattr rel "target_ref" "" = getattr obj "id" "")
            ∨ (getattr rel "target_ref" "" = getattr apt_group "id" "unknown_id"
               ∧ getattr rel "source_ref" "" = getattr obj "id" ""))).
Proof.
  rewrite unique_objects_of_spec.
  intros [Hin _]%first_occurrences_elem.
  apply elem_of_assembled_iff in Hin. cbn in Hin. unfold mentions.
  rewrite elem_of_forward, elem_of_reverse, !elem_of_resolved in Hin.
  destruct Hin as [?|[(?&?&?)|[(?&?&?)|[(? & rel & Hrel & ?)|(? & rel & Hrel & ?)]]]].
  - by left.
  - right. left. tauto.
  - right. left. tauto.
  - apply elem_of_forward in Hrel as (? & ? & ?).
    right. right. split; [done|]. exists rel. tauto.
  - apply elem_of_reverse in Hrel as (? & ? & ?).
    right. right. split; [done|]. exists rel. tauto.
Qed.

Lemma occurs_app c s1 s2 : occurs c (s1 +:+ s2) ↔ occurs c s1 ∨ occurs c s2.
Proof.
  unfold occurs. induction s1 as [|a s1 IH].
  - change ("" +:+ s2) with s2. cbn. rewrite elem_of_nil. tauto.
  - change (String.list_ascii_of_string (String a s1 +:+ s2))
      with (a :: String.list_ascii_of_string (s1 +:+ s2)).
    cbn. rewrite !elem_of_cons, IH. tauto.
Qed.

Lemma occurs_replace_char c a b s :
  occurs c (replace_char a b s)
  ↔ (c ≠ a ∧ occurs c s) ∨ (c = b ∧ occurs a s).
Proof.
  unfold occurs. induction s as [|x s IH]; cbn.
  - rewrite !elem_of_nil. tauto.
  - rewrite !elem_of_cons, IH.
    destruct (decide (x = a)) as [->|Hx]; destruct (decide (c = a)) as [->|Hc];
      intuition congruence.
Qed.

(** X7: In the name of the file written for a group, the part taken from the
    group's name holds neither a space nor a [/]; the id is used as it
    stands, so that the file name holds a [/], and names a path that is
    not directly in the output directory, exactly when the id holds
    one. *)
Theorem filename_of_is_sanitised apt_group :
  ∃ group_name,
    filename_of apt_group
    = group_name +:+ "_" +:+ getattr apt_group "id" "unknown_id" +:+ ".json"
    ∧ ¬ occurs " " group_name ∧ ¬ occurs "/" group_name
    ∧ (occurs "/" (filename_of apt_group)
       ↔ occurs "/" (getattr apt_group "id" "unknown_id")).
Proof.
  eexists. split; [reflexivity|].
  assert (Hslash : ¬ occurs "/"
    (replace_char "/" "_"
       (replace_char " " "_" (getattr apt_group "name" "unknown_apt")))).
  { rewrite occurs_replace_char. intros [[? _]|[? _]]; done. }
  split; [|split; [done|]].
  - rewrite !occurs_replace_char. intros [[_ [[? _]|[? _]]]|[? _]]; done.
  - unfold filename_of. rewrite !occurs_app.
    assert (H1 : ¬ occurs "/" "_")
      by (apply (bool_decide_unpack _); by vm_compute).
    assert (H2 : ¬ occurs "/" ".json")
      by (apply (bool_decide_unpack _); by vm_compute).
    tauto.
Qed.

End GroupBundle.

Section Extraction.

Variable parse : json → exception + pyobj.
Variable Bundle : list pyobj → bool.
Variable writable : string → bool.

Implicit Types (objects : list pyobj) (apt_group obj : pyobj).

Lemma omap_extract_group objects (l : list pyobj) :
  omap (extract_group Bundle writable objects)
       (filter (λ obj, getattr obj "type" "" = "intrusion-set") l)
  = (λ g, (filename_of g, unique_objects_of objects g))
    <$> filter (λ g, getattr g "type" "" = "intrusion-set"
                     ∧ Bundle (unique_objects_of objects g) = true
                     ∧ writable (filename_of g) = true) l.
Proof.
  induction l as [|g l IH]; [done|].
  rewrite !filter_cons.
  destruct (decide (getattr g "type" "" = "intrusion-set")) as [Hty|Hty].
  - cbn -[unique_objects_of filename_of extract_group].
    assert (HE : extract_group Bundle writable objects g
                 = if Bundle (unique_objects_of objects g)
                   then if writable (filename_of g)
                        then Some (filename_of g, unique_objects_of objects g)
                        else None
                   else None) by done.
    rewrite HE. clear HE.
    destruct (decide (Bundle (unique_objects_of objects g) = true
                      ∧ writable (filename_of g) = true)) as [[Hb Hw]|Hno].
    + rewrite Hb, Hw, decide_True by done.
      cbn -[unique_objects_of filename_of extract_group]. by rewrite IH.
    + rewrite decide_False by tauto.
      destruct (Bundle (unique_objects_of objects g)); [|done].
      destruct (writable (filename_of g)); [|done]. by destruct Hno.
  - rewrite decide_False by tauto. done.
Qed.

(** Without its output directory the extractor reads nothing. *)
Lemma extract_all_apts_without_directory file :
  extract_all_apts parse Bundle writable false file = Uncaught OSError.
Proof. done. Qed.

(** X8: Once its output directory is made and the corpus loaded, the
    extractor writes one file for each intrusion-set whose bundle is
    accepted and whose file can be written, in the order of the corpus: a
    group whose bundle is refused or whose file cannot be written costs
    its own file and nothing else. *)
Theorem extract_all_apts_writes_accepted_groups file objects skipped :
  load_stix_data parse file = Returned (objects, skipped) →
  extract_all_apts parse Bundle writable true file
  = Returned
      ((λ g, (filename_of g, unique_objects_of objects g))
       <$> filter (λ g, getattr g "type" "" = "intrusion-set"
                        ∧ Bundle (unique_objects_of objects g) = true
                        ∧ writable (filename_of g) = true) objects).
Proof.
  intros Hload. rewrite <- omap_extract_group.
  unfold extract_all_apts. rewrite Hload.
  cbn -[unique_objects_of filename_of extract_group].
  case_bool_decide as Hnil; [by rewrite Hnil|done].
Qed.

End Extraction.

Section ExtractionExamples.

Import Sample.

Lemma bundle_starts_with_its_group_witness :
  ∃ rest,
    unique_objects_of scenario_corpus (typed group_one)
    = typed group_one :: rest
    ∧ Forall (λ obj, obj ∈ scenario_corpus
                     ∧ getattr obj "id" "" ≠ getattr (typed group_one) "id" "")
             rest.
Proof.
  apply (bundle_starts_with_its_group scenario_corpus (typed group_one)).
  by vm_compute.
Defined.

(** The second group of [lone_corpus] is named by no relationship. *)
Lemma unmentioned_group_is_bundled_alone_witness :
  unique_objects_of lone_corpus (typed group_two) = [typed group_two].
Proof.
  apply (unmentioned_group_is_bundled_alone lone_corpus (typed group_two)).
  - by vm_compute.
  - apply (bool_decide_unpack _). by vm_compute.
Defined.

Example bundle_of_scenario :
  unique_objects_of scenario_corpus (typed group_one)
  = typed <$> [group_one; uses_one; uses_two; technique_one; technique_two].
Proof. reflexivity. Qed.

Lemma bundle_holds_one_hop_only_witness :
  typed technique_one = typed group_one
  ∨ (typed technique_one ∈ scenario_corpus
     ∧ mentions (getattr (typed group_one) "id" "unknown_id")
         (typed technique_one))
  ∨ (typed technique_one ∈ scenario_corpus
     ∧ ∃ rel,
         rel ∈ scenario_corpus ∧ getattr rel "type" "" = "relationship"
         ∧ ((getattr rel "source_ref" ""
             = getattr (typed group_one) "id" "unknown_id"
             ∧ getattr rel "target_ref" ""
               = getattr (typed technique_one) "id" "")
            ∨ (getattr rel "target_ref" ""
               = getattr (typed group_one) "id" "unknown_id"
               ∧ getattr rel "source_ref" ""
                 = getattr (typed technique_one) "id" ""))).
Proof.
  apply (bundle_holds_one_hop_only scenario_corpus (typed group_one)
           (typed technique_one)).
  rewrite bundle_of_scenario.
  do 3 apply list_elem_of_further. apply list_elem_of_here.
Defined.

(** Two groups of which the first cannot be written: the second still
    gets its file. *)
Lemma extract_all_apts_writes_accepted_groups_witness :
  extract_all_apts parse Bundle (λ name, bool_decide (name ≠ "G1_IS-1.json"))
    true (bundle_doc allied_groups)
  = Returned
      ((λ g, (filename_of g, unique_objects_of (typed <$> allied_groups) g))
       <$> filter
             (λ g, getattr g "type" "" = "intrusion-set"
                   ∧ Bundle (unique_objects_of (typed <$> allied_groups) g)
                     = true
                   ∧ bool_decide (filename_of g ≠ "G1_IS-1.json") = true)
             (typed <$> allied_groups)).
Proof.
  apply (extract_all_apts_writes_accepted_groups parse Bundle
           (λ name, bool_decide (name ≠ "G1_IS-1.json"))
           (bundle_doc allied_groups) (typed <$> allied_groups) 0).
  reflexivity.
Defined.

Example extract_skips_unwritable_group :
  (λ entry, entry.1)
    <$> default [] (match extract_all_apts parse Bundle
                            (λ name, bool_decide (name ≠ "G1_IS-1.json"))
                            true (bundle_doc allied_groups) with
                    | Returned log => Some log
                    | _ => None
                    end)
  = ["G2_IS-2.json"].
Proof. reflexivity. Qed.

End ExtractionExamples.

(** ** More on the merger *)

Section FirstOccurrencesKeys.

Context {A K : Type} `{Countable K} (key : A → option K).

Implicit Types (seen : gset K) (l : list A) (k : K).

(** A list whose elements all carry a fresh key, no key twice, is kept
    as it is. *)
Lemma first_occurrences_all seen l :
  Forall (λ x, ∃ k, key x = Some k ∧ k ∉ seen) l →
  NoDup (key <$> l) →
  first_occurrences key seen l = l.
Proof.
  revert seen. induction l as [|x l IH]; intros seen Hall Hnd; [done|].
  apply list.Forall_cons in Hall as [(k & Hk & Hnew) Hall].
  rewrite fmap_cons in Hnd. apply list.NoDup_cons in Hnd as [Hx Hnd].
  rewrite (first_occurrences_new key seen x l k) by done. f_equal.
  apply IH; [|done].
  apply list.Forall_forall. intros y Hy.
  destruct (proj1 (list.Forall_forall _ _) Hall y Hy) as (k' & Hk' & Hnew').
  exists k'. split; [done|].
  apply not_elem_of_union. split; [|done].
  apply not_elem_of_singleton. intros ->. apply Hx.
  apply list_elem_of_fmap. exists y. split; [congruence|done].
Qed.

(** The keys kept are the fresh keys met. *)
Lemma first_occurrences_keys seen l k :
  Some k ∈ key <$> first_occurrences key seen l
  ↔ (k ∉ seen) ∧ ∃ x, x ∈ l ∧ key x = Some k.
Proof.
  split.
  - intros (x & Hx & Hin)%list_elem_of_fmap.
    apply first_occurrences_elem in Hin as [Hin (k' & Hk' & Hnew)].
    assert (k' = k) as -> by congruence. eauto.
  - intros [Hnew (x & Hin & Hk)].
    destruct (first_occurrences_unique key seen l k Hnew)
      as (l1 & y & l2 & _ & Hy & _ & Hf).
    { apply list.Exists_exists. eauto. }
    assert (Hkept : y ∈ filter (λ y, key y = Some k)
                          (first_occurrences key seen l))
      by (rewrite Hf; left).
    apply list_elem_of_filter in Hkept as [_ Hkept].
    apply list_elem_of_fmap. exists y. by split.
Qed.

Lemma first_occurrences_keyed seen l :
  None ∉ key <$> first_occurrences key seen l.
Proof.
  intros (x & Hx & Hin)%list_elem_of_fmap.
  apply first_occurrences_elem in Hin as [_ (k & Hk & _)]. congruence.
Qed.

End FirstOccurrencesKeys.

Section MergerMore.

Variable Bundle : list pyobj → bool.
Variable writable : string → bool.

Implicit Types (stix_dir : list stix_file) (merged_file : string)
  (obj : json) (objects : list json).

Lemma streaming_loop_foreign objects e acc n :
  is_ijson_error e = false →
  streaming_loop (yields objects (GenRaise e)) acc n = Uncaught e.
Proof.
  intros He. revert acc n.
  induction objects as [|obj objects IH]; intros acc n; cbn.
  - by rewrite He.
  - apply IH.
Qed.

Lemma load_all_foreign (before after : list stix_file) bad objects e acc :
  Forall (λ f, readable (file_items f) = true) before →
  file_items bad = yields objects (GenRaise e) →
  is_ijson_error e = false →
  load_all (before ++ bad :: after) acc = Uncaught e.
Proof.
  intros Hbefore Hbad He. revert acc.
  induction Hbefore as [|f before Hf _ IH]; intros acc; cbn.
  - unfold load_stix_objects_streaming.
    by rewrite Hbad, streaming_loop_foreign.
  - rewrite load_stix_objects_streaming_readable by done. cbn. apply IH.
Qed.

(** X9: An exception that is not [ijson]'s, raised while a candidate file is
    streamed, is caught by nobody: the ingestor lets it through, and the
    merge ends with it whatever the other files hold, also when the file
    is the only candidate and would have been copied. *)
Theorem merge_aborts_on_foreign_error stix_dir merged_file
    (before after : list stix_file) bad objects e :
  get_stix_files stix_dir merged_file = before ++ bad :: after →
  Forall (λ f, readable (file_items f) = true) before →
  file_items bad = yields objects (GenRaise e) →
  is_ijson_error e = false →
  load_stix_objects_streaming bad = Uncaught e
  ∧ merge_all_stix_files Bundle writable stix_dir merged_file = Uncaught e.
Proof.
  intros Hfiles Hbefore Hbad He. split.
  - unfold load_stix_objects_streaming.
    by rewrite Hbad, streaming_loop_foreign.
  - unfold merge_all_stix_files. rewrite Hfiles.
    destruct (before ++ bad :: after) as [|f fs] eqn:Heq;
      [by destruct before|].
    rewrite <- Heq.
    by rewrite (load_all_foreign before after bad objects e).
Qed.

Lemma get_stix_files_candidates stix_dir merged_file :
  get_stix_files stix_dir merged_file = filter (candidate merged_file) stix_dir.
Proof.
  unfold get_stix_files, glob_json. rewrite list_filter_filter.
  apply list_filter_iff. intros f. unfold candidate. tauto.
Qed.

(** X10: The merge does not depend on the entries of the directory that are
    not candidates: a file that bears the name of the canonical file
    (the output of an earlier run, which lives in the same directory) or
    whose name does not end in [.json] can be removed without changing
    what the merge does. *)
Theorem merge_reads_candidates_only merged_file
    (before after : list stix_file) other :
  file_name other = merged_file ∨ ends_with ".json" (file_name other) = false →
  merge_all_stix_files Bundle writable (before ++ other :: after) merged_file
  = merge_all_stix_files Bundle writable (before ++ after) merged_file.
Proof.
  intros Hother. unfold merge_all_stix_files.
  rewrite !get_stix_files_candidates, !list.filter_app.
  rewrite filter_cons_False; [done|].
  unfold candidate. intros [Hjson Hname].
  destruct Hother as [?|Hno]; [done|]. by rewrite Hno in Hjson.
Qed.

(** X11: With two or more candidate files, the merge returns exactly when
    every candidate can be streamed, every streamed object is a [dict]
    whose [id] is false or hashable, the bundle of the objects kept is
    accepted, and the canonical file can be written. *)
Theorem merge_returns_iff stix_dir merged_file :
  2 ≤ length (get_stix_files stix_dir merged_file) →
  (∃ result,
     merge_all_stix_files Bundle writable stix_dir merged_file
     = Returned result)
  ↔ Forall (λ f, readable (file_items f) = true)
           (get_stix_files stix_dir merged_file)
    ∧ Forall mergeable (streamed (get_stix_files stix_dir merged_file))
    ∧ Bundle (Plain <$> first_occurrences merge_key ∅
                          (streamed (get_stix_files stix_dir merged_file)))
      = true
    ∧ writable merged_file = true.
Proof.
  intros Hlen. split.
  - intros [result Hrun]. unfold merge_all_stix_files in Hrun.
    destruct (get_stix_files stix_dir merged_file) as [|f1 [|f2 rest]];
      cbn in Hlen; [lia..|].
    destruct (load_all (f1 :: f2 :: rest) []) as [all_objects| |] eqn:Hload;
      [|done..].
    pose proof (load_all_returns _ _ _ Hload) as Hread.
    rewrite load_all_readable in Hload by done. injection Hload as <-.
    cbn -[streamed] in Hrun.
    destruct (merge_loop _ _) as [[seen' unique_objects]| |] eqn:Hloop;
      [|done..].
    apply merge_loop_returns in Hloop as [Hu Hall]. cbn in Hu. subst.
    cbn -[streamed] in Hrun. unfold write_bundle in Hrun.
    destruct (Bundle _) eqn:Hb; [|done].
    by destruct (writable merged_file) eqn:Hw.
  - intros (Hread & Hall & Hb & Hw). eexists.
    by apply merge_all_rebundles.
Qed.

Lemma merge_loop_app (l1 l2 : list json) st :
  merge_loop (l1 ++ l2) st = st' ← merge_loop l1 st; merge_loop l2 st'.
Proof.
  revert st. induction l1 as [|obj l1 IH]; intros st; [done|].
  cbn. destruct (merge_step st obj); cbn; [apply IH|done..].
Qed.

Lemma merge_step_bad st obj :
  ¬ mergeable obj →
  merge_step st obj
  = Uncaught (match obj with JObj _ => TypeError | _ => AttributeError end).
Proof.
  destruct obj as [| | | | |fields]; try done.
  unfold mergeable, raw_id. cbn. intros Hbad.
  destruct (truthy _) eqn:Htruthy.
  - destruct (py_hash _) eqn:Hhash; [|done]. destruct Hbad. eauto.
  - destruct Hbad. done.
Qed.

(** X12: With two or more candidate files that can be streamed, the first
    object the loop cannot process ends the merge: [AttributeError] when
    it is not a [dict], [TypeError] when its [id] cannot be hashed.
    Nothing is written. *)
Theorem merge_raises_on_first_bad_object stix_dir merged_file
    (before after : list json) bad :
  2 ≤ length (get_stix_files stix_dir merged_file) →
  Forall (λ f, readable (file_items f) = true)
         (get_stix_files stix_dir merged_file) →
  streamed (get_stix_files stix_dir merged_file) = before ++ bad :: after →
  Forall mergeable before → ¬ mergeable bad →
  merge_all_stix_files Bundle writable stix_dir merged_file
  = Uncaught (match bad with JObj _ => TypeError | _ => AttributeError end).
Proof.
  intros Hlen Hread Hstreamed Hbefore Hbad. unfold merge_all_stix_files.
  rewrite load_all_readable by done.
  destruct (get_stix_files stix_dir merged_file) as [|f1 [|f2 rest]];
    cbn in Hlen; [lia..|].
  cbn -[streamed]. rewrite Hstreamed, merge_loop_app.
  destruct (merge_loop_mergeable before ∅ [] Hbefore) as [seen' ->].
  cbn. by rewrite merge_step_bad.
Qed.

(** X13: A merge of several files keeps every streamed object, in order,
    exactly when every object has an [id] the loop remembers and no [id]
    comes twice. *)
Theorem merge_loses_nothing_iff stix_dir merged_file merged :
  merge_all_stix_files Bundle writable stix_dir merged_file
  = Returned (Rebundled merged) →
  merged = streamed (get_stix_files stix_dir merged_file)
  ↔ Forall (λ obj, is_Some (merge_key obj))
           (streamed (get_stix_files stix_dir merged_file))
    ∧ NoDup (merge_key <$> streamed (get_stix_files stix_dir merged_file)).
Proof.
  intros Hrun.
  apply merge_all_returns in Hrun
    as [[_ [=]]|[(f & _ & [=])|(_ & _ & [= ->])]].
  split.
  - intros Heq. split.
    + rewrite <- Heq. apply list.Forall_forall.
      intros obj [_ (k & -> & _)]%first_occurrences_elem. eauto.
    + rewrite <- Heq. apply first_occurrences_NoDup.
  - intros [Hall Hnd]. apply first_occurrences_all; [|done].
    eapply list.Forall_impl; [exact Hall|].
    intros obj [k Hk]. exists k. split; [done|apply not_elem_of_empty].
Qed.

Lemma elem_of_streamed obj (stix_files : list stix_file) :
  obj ∈ streamed stix_files
  ↔ ∃ f, f ∈ stix_files ∧ obj ∈ generator_items (file_items f).
Proof.
  unfold streamed. induction stix_files as [|f fs IH]; cbn.
  - split; [by intros ?%not_elem_of_nil|].
    by intros (f & ?%not_elem_of_nil & _).
  - rewrite elem_of_app, IH. split.
    + intros [?|(f' & ? & ?)].
      * exists f. split; [left|done].
      * exists f'. split; [by right|done].
    + intros (f' & [->|?]%elem_of_cons & ?); [by left|right; eauto].
Qed.

(** X14: The ids of the merged bundle do not depend on the order in which the
    directory is enumerated: two runs on the same entries, listed in
    different orders, keep the same ids and as many objects, though
    possibly different objects under an id that several files carry. *)
Theorem merged_ids_do_not_depend_on_file_order stix_dir stix_dir'
    merged_file merged merged' :
  stix_dir ≡ₚ stix_dir' →
  merge_all_stix_files Bundle writable stix_dir merged_file
  = Returned (Rebundled merged) →
  merge_all_stix_files Bundle writable stix_dir' merged_file
  = Returned (Rebundled merged') →
  merge_key <$> merged ≡ₚ merge_key <$> merged'
  ∧ length merged = length merged'.
Proof.
  intros Hperm Hrun Hrun'.
  apply merge_all_returns in Hrun
    as [[_ [=]]|[(f & _ & [=])|(_ & _ & [= ->])]].
  apply merge_all_returns in Hrun'
    as [[_ [=]]|[(f & _ & [=])|(_ & _ & [= ->])]].
  assert (Hkeys :
    merge_key <$> first_occurrences merge_key ∅
                    (streamed (get_stix_files stix_dir merged_file))
    ≡ₚ merge_key <$> first_occurrences merge_key ∅
                       (streamed (get_stix_files stix_dir' merged_file))).
  { apply NoDup_Permutation; [apply first_occurrences_NoDup..|].
    assert (Hfiles : ∀ f, f ∈ get_stix_files stix_dir merged_file
                          ↔ f ∈ get_stix_files stix_dir' merged_file).
    { intros f. rewrite !get_stix_files_candidates, !list_elem_of_filter.
      by rewrite Hperm. }
    intros [k|].
    - rewrite !first_occurrences_keys.
      split; intros [Hnew (obj & (f & Hf & Hobj)%elem_of_streamed & Hk)];
        (split; [done|]); exists obj; (split; [|done]);
        apply elem_of_streamed; exists f; (split; [|done]); by apply Hfiles.
    - split; intros Hnone; by apply first_occurrences_keyed in Hnone. }
  split; [done|].
  apply Permutation_length in Hkeys. by rewrite !length_fmap in Hkeys.
Qed.

End MergerMore.

Section MergerMoreExamples.

Import Sample.

Lemma merge_aborts_on_foreign_error_witness :
  load_stix_objects_streaming failing_file = Uncaught OSError
  ∧ merge_all_stix_files Bundle writable [file_a; failing_file; canonical]
      "stix_full.json"
    = Uncaught OSError.
Proof.
  apply (merge_aborts_on_foreign_error Bundle writable
           [file_a; failing_file; canonical] "stix_full.json"
           [file_a] [] failing_file [x_first] OSError).
  - reflexivity.
  - repeat constructor.
  - reflexivity.
  - reflexivity.
Defined.

Lemma merge_reads_candidates_only_witness :
  merge_all_stix_files Bundle writable ([file_a] ++ canonical :: [file_b])
    "stix_full.json"
  = merge_all_stix_files Bundle writable ([file_a] ++ [file_b])
      "stix_full.json".
Proof.
  apply (merge_reads_candidates_only Bundle writable "stix_full.json"
           [file_a] [file_b] canonical).
  left. reflexivity.
Defined.

Example merge_skips_other_entries :
  merge_all_stix_files Bundle writable [notes; file_a; canonical]
    "stix_full.json"
  = Returned (Copied file_a).
Proof. reflexivity. Qed.

Lemma merge_returns_iff_witness :
  (∃ result,
     merge_all_stix_files Bundle writable [file_a; canonical; file_b]
       "stix_full.json"
     = Returned result)
  ↔ Forall (λ f, readable (file_items f) = true)
           (get_stix_files [file_a; canonical; file_b] "stix_full.json")
    ∧ Forall mergeable
        (streamed (get_stix_files [file_a; canonical; file_b]
                     "stix_full.json"))
    ∧ Bundle (Plain <$> first_occurrences merge_key ∅
                (streamed (get_stix_files [file_a; canonical; file_b]
                             "stix_full.json")))
      = true
    ∧ writable "stix_full.json" = true.
Proof.
  apply (merge_returns_iff Bundle writable [file_a; canonical; file_b]
           "stix_full.json").
  vm_compute. lia.
Defined.

(** A string among the objects of the second file. *)
Lemma merge_raises_on_first_bad_object_witness :
  merge_all_stix_files Bundle writable [file_a; stray_file] "stix_full.json"
  = Uncaught AttributeError.
Proof.
  apply (merge_raises_on_first_bad_object Bundle writable
           [file_a; stray_file] "stix_full.json"
           [x_first; y_first; z_first] [y_first] (JStr "oops")).
  - vm_compute. lia.
  - repeat constructor.
  - reflexivity.
  - repeat (constructor; [cbn; intros _; by eexists|]). constructor.
  - intros [].
Defined.

Example merge_raises_on_list_id :
  merge_all_stix_files Bundle writable [file_a; odd_file] "stix_full.json"
  = Uncaught TypeError
  ∧ merge_all_stix_files Bundle writable [odd_file] "stix_full.json"
    = Returned (Copied odd_file).
Proof. split; reflexivity. Qed.

Lemma merge_loses_nothing_iff_witness :
  [x_first; y_first; z_first]
  = streamed (get_stix_files [file_a; canonical; file_b] "stix_full.json")
  ↔ Forall (λ obj, is_Some (merge_key obj))
           (streamed (get_stix_files [file_a; canonical; file_b]
                        "stix_full.json"))
    ∧ NoDup (merge_key
               <$> streamed (get_stix_files [file_a; canonical; file_b]
                               "stix_full.json")).
Proof.
  apply (merge_loses_nothing_iff Bundle writable [file_a; canonical; file_b]
           "stix_full.json" [x_first; y_first; z_first]).
  reflexivity.
Defined.

(** The two files of the merge scenario, enumerated in either order:
    the ids are X, Y and Z both times, with Y from the file met first. *)
Lemma merged_ids_do_not_depend_on_file_order_witness :
  merge_key <$> [x_first; y_first; z_first]
  ≡ₚ merge_key <$> [y_second; z_first; x_first]
  ∧ length [x_first; y_first; z_first] = length [y_second; z_first; x_first].
Proof.
  apply (merged_ids_do_not_depend_on_file_order Bundle writable
           [file_a; file_b] [file_b; file_a] "stix_full.json").
  - apply perm_swap.
  - reflexivity.
  - reflexivity.
Defined.

End MergerMoreExamples.

(** ** Extraction after a merge *)

Section Pipeline.

Variable parse : json → exception + pyobj.
Variable Bundle : list pyobj → bool.
Variable writable : string → bool.

Implicit Types (stix_dir : list stix_file) (merged_file : string)
  (objects : list pyobj) (apt_group obj : pyobj).

Lemma kept_ids_NoDup (raw : list json) :
  NoDup (raw_id <$> raw) →
  Forall (λ r, ∀ o, kept parse r = Some o
                    → raw_id r = JStr (getattr o "id" "")) raw →
  NoDup ((λ o, getattr o "id" "") <$> omap (kept parse) raw).
Proof.
  induction raw as [|r raw IH]; intros Hnd Hids; [constructor|].
  rewrite fmap_cons in Hnd. apply list.NoDup_cons in Hnd as [Hnew Hnd].
  apply list.Forall_cons in Hids as [Hid Hids].
  cbn. destruct (kept parse r) as [o|] eqn:Hk; [|by apply IH].
  cbn. apply list.NoDup_cons. split; [|by apply IH].
  intros (o' & Heq & (r' & Hin & Hk')%list_elem_of_omap)%list_elem_of_fmap.
  apply Hnew. apply list_elem_of_fmap. exists r'. split; [|done].
  rewrite (Hid o eq_refl).
  rewrite (proj1 (list.Forall_forall _ _) Hids r' Hin o' Hk').
  by rewrite Heq.
Qed.

(** X15: Extraction run on the output of a merge of several files: when the
    canonical file reads back as a bundle whose objects carry, in order,
    the ids of the objects that were written, and typed parsing gives
    each object the [id] of its raw form, the loaded objects all carry an
    [id] and no two of them the same one. The bundle of a group then
    holds every object assembled for it: none is left out because another
    object has taken its [id]. *)
Theorem extraction_after_merge_sees_unique_ids stix_dir merged_file merged
    fields (reread : list json) objects skipped :
  merge_all_stix_files Bundle writable stix_dir merged_file
  = Returned (Rebundled merged) →
  dict_get fields "objects" = Some (JArr reread) →
  raw_id <$> reread = raw_id <$> merged →
  Forall (λ r, ∀ o, kept parse r = Some o
                    → raw_id r = JStr (getattr o "id" "")) reread →
  load_stix_data parse (ReadValue (JObj fields)) = Returned (objects, skipped) →
  Forall (λ o, getattr o "id" "" ≠ "") objects
  ∧ NoDup ((λ o, getattr o "id" "") <$> objects)
  ∧ ∀ apt_group obj,
      apt_group ∈ objects → obj ∈ assembled objects apt_group →
      obj ∈ unique_objects_of objects apt_group.
Proof.
  intros Hrun Hget Hsame Hids Hload.
  rewrite (load_stix_data_array parse fields reread Hget) in Hload.
  injection Hload as <- <-.
  apply merge_all_returns in Hrun
    as [[_ [=]]|[(f & _ & [=])|(_ & _ & [= Hmerged])]].
  assert (Hall : Forall (λ o, getattr o "id" "" ≠ "")
                        (omap (kept parse) reread)).
  { apply list.Forall_forall. intros o (r & Hin & Hk)%list_elem_of_omap.
    pose proof (proj1 (list.Forall_forall _ _) Hids r Hin o Hk) as Hid.
    assert (Hr : raw_id r ∈ raw_id <$> merged).
    { rewrite <- Hsame. apply list_elem_of_fmap. by exists r. }
    apply list_elem_of_fmap in Hr as (m & Hm & Hin').
    rewrite Hmerged in Hin'.
    apply first_occurrences_elem in Hin' as [_ (k & Hkey & _)].
    apply merge_key_truthy in Hkey as [Htruthy _].
    rewrite <- Hm, Hid in Htruthy. cbn in Htruthy.
    by apply bool_decide_eq_true in Htruthy. }
  assert (Hnd : NoDup ((λ o, getattr o "id" "") <$> omap (kept parse) reread)).
  { apply kept_ids_NoDup; [|done].
    rewrite Hsame, Hmerged. apply merged_ids_NoDup. }
  split; [done|]. split; [done|].
  intros apt_group obj Hgroup Hobj.
  assert (Hin : obj ∈ omap (kept parse) reread).
  { by destruct (elem_of_assembled _ _ _ Hobj) as [->|?]. }
  apply bundled; [by apply NoDup_ids_identify|done..|].
  by apply (proj1 (list.Forall_forall _ _) Hall).
Qed.

End Pipeline.

(** ** The downloader and the command line *)

Section Downloader.

Variable url_path : string → string.
Variable request : string → http_result.
Variable dir_exists can_create : bool.
Variable can_save : string → bool.
Variable STIX_URL : string.

Lemma basename_no_slash path : ¬ occurs "/" (basename path).
Proof.
  induction path as [|c rest IH]; cbn.
  - apply not_elem_of_nil.
  - case_bool_decide as Hrest; [done|]. case_decide as Hc; [done|].
    unfold occurs in *. cbn. rewrite elem_of_cons. intros [?|?]; [|done].
    by apply Hc.
Qed.

Lemma basename_suffix path :
  ∃ dir,
    path = dir +:+ basename path
    ∧ (dir = "" ∨ ∃ parent, dir = parent +:+ "/").
Proof.
  induction path as [|c rest (dir & IH & Hdir)]; cbn.
  - exists "". split; [done|by left].
  - case_bool_decide as Hrest.
    + exists (String c dir). split.
      * change (String c dir +:+ basename rest)
          with (String c (dir +:+ basename rest)).
        by rewrite <- IH.
      * right. destruct Hdir as [->|[parent ->]].
        -- exfalso. apply (basename_no_slash rest).
           change ("" +:+ basename rest) with (basename rest) in IH.
           by rewrite <- IH.
        -- by exists (String c parent).
    + case_decide as Hc.
      * subst c. exists "/". split; [done|]. right. by exists "".
      * exists "". split; [done|by left].
Qed.

Lemma basename_last_segment path : last_segment path (basename path).
Proof. split; [apply basename_no_slash|apply basename_suffix]. Qed.

Lemma basename_plain name : ¬ occurs "/" name → basename name = name.
Proof.
  destruct name as [|c rest]; [done|]. intros Hno. cbn.
  unfold occurs in Hno. cbn in Hno. rewrite not_elem_of_cons in Hno.
  destruct Hno as [Hc Hrest].
  rewrite bool_decide_eq_false_2 by done.
  by rewrite decide_False by (by intros ->).
Qed.

Lemma basename_after_slash parent name :
  ¬ occurs "/" name → basename ((parent +:+ "/") +:+ name) = name.
Proof.
  intros Hno. induction parent as [|c parent IH].
  - change (("" +:+ "/") +:+ name) with (String "/" name). cbn.
    rewrite bool_decide_eq_false_2 by done. by rewrite decide_True.
  - change ((String c parent +:+ "/") +:+ name)
      with (String c ((parent +:+ "/") +:+ name)).
    cbn. rewrite bool_decide_eq_true_2; [done|].
    apply occurs_app. left. apply occurs_app. right.
    unfold occurs. cbn. left.
Qed.

(** The last segment of a path is what [get_filename_from_url] takes. *)
Lemma last_segment_basename path name :
  last_segment path name ↔ name = basename path.
Proof.
  split; [|intros ->; apply basename_last_segment].
  intros (Hno & dir & -> & [->|[parent ->]]).
  - change ("" +:+ name) with name. by rewrite basename_plain.
  - by rewrite basename_after_slash.
Qed.

(** X16: [download_all] saves the body of the response under the last
    segment of the URL's path, that is, what follows its last [/], and
    returns; it returns too, with nothing saved, when the request fails,
    which is reported and swallowed. It raises, and then [OSError],
    exactly when the directory is missing and cannot be made, or the
    response came and the file cannot be written. It never leaves
    through [sys.exit]. *)
Theorem download_all_outcome :
  last_segment (url_path STIX_URL) (get_filename_from_url url_path STIX_URL)
  ∧ (∀ saved,
       download_all url_path request dir_exists can_create can_save STIX_URL
       = Returned saved
       ↔ (dir_exists = true ∨ can_create = true)
         ∧ ((request STIX_URL = RequestFailed ∧ saved = None)
            ∨ ∃ name content,
                request STIX_URL = Received content
                ∧ last_segment (url_path STIX_URL) name
                ∧ can_save name = true
                ∧ saved = Some (name, content)))
  ∧ (∀ e,
       download_all url_path request dir_exists can_create can_save STIX_URL
       = Uncaught e
       ↔ e = OSError
         ∧ ((dir_exists = false ∧ can_create = false)
            ∨ ((dir_exists = true ∨ can_create = true)
               ∧ ∃ name content,
                   request STIX_URL = Received content
                   ∧ last_segment (url_path STIX_URL) name
                   ∧ can_save name = false)))
  ∧ (∀ code,
       download_all url_path request dir_exists can_create can_save STIX_URL
       ≠ SysExit code).
Proof.
  split; [apply basename_last_segment|].
  assert (Hrun :
    download_all url_path request dir_exists can_create can_save STIX_URL
    = if dir_exists || can_create
      then match request STIX_URL with
           | RequestFailed => Returned None
           | Received content =>
               if can_save (basename (url_path STIX_URL))
               then Returned (Some (basename (url_path STIX_URL), content))
               else Uncaught OSError
           end
      else Uncaught OSError).
  { unfold download_all, ensure_dir, download_file, get_filename_from_url.
    by destruct dir_exists, can_create. }
  rewrite Hrun. clear Hrun.
  assert (Hdir : (dir_exists = true ∨ can_create = true)
                 ↔ dir_exists || can_create = true).
  { destruct dir_exists, can_create; cbn; intuition congruence. }
  assert (Hnodir : (dir_exists = false ∧ can_create = false)
                   ↔ dir_exists || can_create = false).
  { destruct dir_exists, can_create; cbn; intuition congruence. }
  setoid_rewrite Hdir. setoid_rewrite Hnodir. clear Hdir Hnodir.
  destruct (dir_exists || can_create); split; [|split| |split].
  - intros saved. split.
    + intros Hsaved. split; [done|].
      destruct (request STIX_URL) as [|content]; [left; by injection Hsaved|].
      destruct (can_save _) eqn:Hsave; [|done]. injection Hsaved as <-.
      right. exists (basename (url_path STIX_URL)), content.
      split; [done|]. split; [apply basename_last_segment|done].
    + intros [_ [[-> ->]|(name & content & -> & Hname & Hsave & ->)]]; [done|].
      apply last_segment_basename in Hname as ->. by rewrite Hsave.
  - intros e. split.
    + intros He. destruct (request STIX_URL) as [|content]; [done|].
      destruct (can_save _) eqn:Hsave; [done|]. injection He as <-.
      split; [done|]. right. split; [done|].
      exists (basename (url_path STIX_URL)), content.
      split; [done|]. split; [apply basename_last_segment|done].
    + intros [-> [?|[_ (name & content & -> & Hname & Hsave)]]]; [done|].
      apply last_segment_basename in Hname as ->. by rewrite Hsave.
  - intros code. destruct (request STIX_URL); [done|].
    by destruct (can_save _).
  - intros saved. split; [done|]. by intros [? _].
  - intros e. split.
    + intros [= <-]. split; [done|by left].
    + intros [-> _]. done.
  - done.
Qed.

Lemma download_all_returns_iff :
  (∃ saved,
     download_all url_path request dir_exists can_create can_save STIX_URL
     = Returned saved)
  ↔ (dir_exists = true ∨ can_create = true)
    ∧ (request STIX_URL = RequestFailed
       ∨ can_save (get_filename_from_url url_path STIX_URL) = true).
Proof.
  unfold download_all, ensure_dir, download_file, get_filename_from_url.
  destruct dir_exists, can_create; cbn;
    destruct (request STIX_URL); destruct (can_save _);
    split; try (intros [? ?]; done); try (intros [[?|?] [?|?]]; done);
    intros _; eauto.
Qed.

End Downloader.

Section Commands.

Variable url_path : string → string.
Variable request : string → http_result.
Variable dir_exists can_create : bool.
Variable can_save : string → bool.
Variable parse : json → exception + pyobj.
Variable Bundle : list pyobj → bool.
Variable writable : string → bool.
Variable apt_dir_made : bool.
Variable STIX_URL : string.
Variable STIX_DIR : list stix_file.
Variable merged_name : string.
Variable STIX_FILE : read_result.

Lemma streaming_loop_no_exit g (objects : list json) count code :
  streaming_loop g objects count ≠ SysExit code.
Proof.
  revert objects count. induction g as [obj rest IH| |e]; intros acc n; cbn.
  - apply IH.
  - done.
  - by destruct (is_ijson_error e).
Qed.

Lemma load_all_no_exit (stix_files : list stix_file) all_objects code :
  load_all stix_files all_objects ≠ SysExit code.
Proof.
  revert all_objects. induction stix_files as [|f fs IH]; intros acc; cbn.
  - done.
  - destruct (load_stix_objects_streaming f) as [objs|c|e] eqn:Hf; cbn.
    + apply IH.
    + by apply streaming_loop_no_exit in Hf.
    + done.
Qed.

Lemma merge_loop_no_exit (objects : list json) st code :
  merge_loop objects st ≠ SysExit code.
Proof.
  revert st. induction objects as [|obj objects IH]; intros st; cbn; [done|].
  destruct (merge_step st obj) as [st'|c|e] eqn:Hstep; cbn; [apply IH| |done].
  destruct obj as [| | | | |fields]; try done. cbn in Hstep.
  destruct (truthy _); [|done]. destruct (py_hash _); [|done].
  by case_bool_decide.
Qed.

Lemma merge_all_no_exit stix_dir merged_file code :
  merge_all_stix_files Bundle writable stix_dir merged_file ≠ SysExit code.
Proof.
  unfold merge_all_stix_files.
  destruct (get_stix_files stix_dir merged_file) as [|f1 others]; [done|].
  destruct (load_all (f1 :: others) []) as [all_objects|c|e] eqn:Hload; cbn.
  - destruct others as [|f2 rest].
    + by destruct (writable merged_file).
    + destruct (merge_loop all_objects (∅, [])) as [st|c|e] eqn:Hloop; cbn.
      * unfold write_bundle. destruct (Bundle _); [|done].
        by destruct (writable merged_file).
      * by apply merge_loop_no_exit in Hloop.
      * done.
  - by apply load_all_no_exit in Hload.
  - done.
Qed.

(** When the merge returns, whatever the number of candidates. *)
Lemma merge_all_returns_iff stix_dir merged_file :
  (∃ result,
     merge_all_stix_files Bundle writable stix_dir merged_file
     = Returned result)
  ↔ Forall (λ f, readable (file_items f) = true)
           (get_stix_files stix_dir merged_file)
    ∧ (get_stix_files stix_dir merged_file = []
       ∨ (length (get_stix_files stix_dir merged_file) = 1
          ∧ writable merged_file = true)
       ∨ (2 ≤ length (get_stix_files stix_dir merged_file)
          ∧ Forall mergeable (streamed (get_stix_files stix_dir merged_file))
          ∧ Bundle (Plain <$> first_occurrences merge_key ∅
                      (streamed (get_stix_files stix_dir merged_file)))
            = true
          ∧ writable merged_file = true)).
Proof.
  split.
  - intros [result Hrun]. unfold merge_all_stix_files in Hrun.
    destruct (get_stix_files stix_dir merged_file) as [|f1 others] eqn:Hfiles.
    { split; [constructor|by left]. }
    destruct (load_all (f1 :: others) []) as [all_objects| |] eqn:Hload;
      [|done..].
    pose proof (load_all_returns _ _ _ Hload) as Hread.
    split; [done|]. right.
    rewrite load_all_readable in Hload by done. injection Hload as <-.
    cbn -[streamed] in Hrun. destruct others as [|f2 rest].
    + left. split; [done|]. by destruct (writable merged_file).
    + right. split; [cbn; lia|].
      destruct (merge_loop _ _) as [[seen' unique_objects]| |] eqn:Hloop;
        [|done..].
      apply merge_loop_returns in Hloop as [Hu Hall]. cbn in Hu. subst.
      cbn -[streamed] in Hrun. unfold write_bundle in Hrun.
      destruct (Bundle _) eqn:Hb; [|done].
      by destruct (writable merged_file) eqn:Hw.
  - intros [Hread [Hnone|[[Hone Hw]|(Hlen & Hall & Hb & Hw)]]].
    + exists NoOutput. unfold merge_all_stix_files. by rewrite Hnone.
    + destruct (get_stix_files stix_dir merged_file) as [|f [|f2 rest]] eqn:Hf;
        [done| |done].
      exists (Copied f). apply merge_all_copies; [done| |done].
      by apply list.Forall_cons in Hread as [? _].
    + eexists. by apply merge_all_rebundles.
Qed.

Lemma extract_all_apts_returns_iff file :
  (∃ log, extract_all_apts parse Bundle writable apt_dir_made file
          = Returned log)
  ↔ apt_dir_made = true
    ∧ ∃ raw_data, file = ReadValue raw_data ∧ walkable raw_data.
Proof.
  unfold extract_all_apts. destruct apt_dir_made.
  - assert (Hload : (∃ loaded, load_stix_data parse file = Returned loaded)
                    ↔ ∃ raw_data, file = ReadValue raw_data ∧ walkable raw_data).
    { split.
      - intros [loaded Hloaded].
        destruct file as [e|raw_data]; [by destruct e|].
        exists raw_data. split; [done|].
        destruct raw_data as [| | | | |fields]; try done. cbn in *.
        by destruct (dict_get fields "objects") as [[]|].
      - intros (raw_data & -> & Hw).
        destruct raw_data as [| | | | |fields]; try done. cbn in *.
        destruct (dict_get fields "objects") as [[]|]; cbn; eauto; done. }
    rewrite <- Hload. split.
    + intros [log Hlog].
      destruct (load_stix_data parse file) as [loaded| |]; [eauto|done..].
    + intros [_ [loaded ->]]. cbn. case_bool_decide; eauto.
  - split; [by intros [? ?]|by intros [? _]].
Qed.

Lemma extract_all_apts_exit_status file :
  exit_status (extract_all_apts parse Bundle writable apt_dir_made file) = None
  ∨ exit_status (extract_all_apts parse Bundle writable apt_dir_made file)
    = Some 1.
Proof.
  assert (Hcode : ∀ code, load_stix_data parse file = SysExit code → code = 1).
  { intros code. destruct file as [e|raw_data].
    - destruct e; cbn; congruence.
    - destruct raw_data as [| | | | |fields]; try done.
      unfold load_stix_data.
      by destruct (default (JArr []) (dict_get fields "objects")). }
  unfold extract_all_apts. destruct apt_dir_made; [|by right].
  destruct (load_stix_data parse file) as [loaded|code|e]; cbn.
  - case_bool_decide; by left.
  - right. by rewrite (Hcode code eq_refl).
  - by right.
Qed.

Lemma fmap_returns {A B : Type} (f : A → B) (m : outcome A) :
  (∃ b, f <$> m = Returned b) ↔ ∃ a, m = Returned a.
Proof. destruct m; cbn; split; intros [? ?]; eauto; done. Qed.

Lemma exit_status_fmap {A B : Type} (f : A → B) (m : outcome A) :
  exit_status (f <$> m) = exit_status m.
Proof. by destruct m. Qed.

(** X17: the command line ends well, with the result of the command that
    its first argument names in letters of any case, in these cases and
    no other: [download], when the download directory is there or can be
    made and the request fails or the file can be written; [merge], when
    every candidate can be streamed and there is no candidate, or one
    and the canonical file can be written, or several whose objects the
    loop can process and whose bundle is accepted and written;
    [extract], when the output directory can be made and the corpus file
    holds a document the loader can walk; [help]. In every other case,
    among them no argument and an unknown word, the process ends with
    status 1. *)
Theorem main_returns_iff argv :
  ((∃ done,
      main url_path request dir_exists can_create can_save parse Bundle
        writable apt_dir_made STIX_URL STIX_DIR merged_name STIX_FILE argv
      = Returned done)
   ↔ ∃ prog arg rest,
       argv = prog :: arg :: rest
       ∧ ((lower arg = "download"
           ∧ (dir_exists = true ∨ can_create = true)
           ∧ (request STIX_URL = RequestFailed
              ∨ can_save (get_filename_from_url url_path STIX_URL) = true))
          ∨ (lower arg = "merge"
             ∧ Forall (λ f, readable (file_items f) = true)
                      (get_stix_files STIX_DIR merged_name)
             ∧ (get_stix_files STIX_DIR merged_name = []
                ∨ (length (get_stix_files STIX_DIR merged_name) = 1
                   ∧ writable merged_name = true)
                ∨ (2 ≤ length (get_stix_files STIX_DIR merged_name)
                   ∧ Forall mergeable
                       (streamed (get_stix_files STIX_DIR merged_name))
                   ∧ Bundle (Plain <$> first_occurrences merge_key ∅
                               (streamed
                                  (get_stix_files STIX_DIR merged_name)))
                     = true
                   ∧ writable merged_name = true)))
          ∨ (lower arg = "extract"
             ∧ apt_dir_made = true
             ∧ ∃ raw_data, STIX_FILE = ReadValue raw_data ∧ walkable raw_data)
          ∨ lower arg = "help"))
  ∧ (∀ done,
       main url_path request dir_exists can_create can_save parse Bundle
         writable apt_dir_made STIX_URL STIX_DIR merged_name STIX_FILE argv
       = Returned done →
       ∃ prog arg rest,
         argv = prog :: arg :: rest
         ∧ match done with
           | Downloaded saved =>
               lower arg = "download"
               ∧ download_all url_path request dir_exists can_create can_save
                   STIX_URL
                 = Returned saved
           | Merged result =>
               lower arg = "merge"
               ∧ merge_all_stix_files Bundle writable STIX_DIR merged_name
                 = Returned result
           | Extracted log =>
               lower arg = "extract"
               ∧ extract_all_apts parse Bundle writable apt_dir_made STIX_FILE
                 = Returned log
           | Helped => lower arg = "help"
           end)
  ∧ (exit_status
       (main url_path request dir_exists can_create can_save parse Bundle
          writable apt_dir_made STIX_URL STIX_DIR merged_name STIX_FILE argv)
     = None
     ∨ exit_status
         (main url_path request dir_exists can_create can_save parse Bundle
            writable apt_dir_made STIX_URL STIX_DIR merged_name STIX_FILE argv)
       = Some 1).
Proof.
  destruct argv as [|prog [|arg rest]].
  { split; [|split; [done|by right]].
    split; [by intros [? ?]|by intros (? & ? & ? & ? & _)]. }
  { split; [|split; [done|by right]].
    split; [by intros [? ?]|by intros (? & ? & ? & ? & _)]. }
  cbn [main].
  destruct (decide (lower arg = "download")) as [Hd|Hd];
    [|destruct (decide (lower arg = "merge")) as [Hm|Hm];
      [|destruct (decide (lower arg = "extract")) as [He|He];
        [|destruct (decide (lower arg = "help")) as [Hh|Hh]]]].
  - split; [|split].
    + rewrite fmap_returns, download_all_returns_iff. split.
      * intros Hok. exists prog, arg, rest. split; [done|]. left. tauto.
      * intros (? & ? & ? & [= <- <- <-] & [?|[[Hc _]|[[Hc _]|Hc]]]);
          [tauto|congruence..].
    + intros done Hrun. exists prog, arg, rest. split; [done|].
      destruct (download_all _ _ _ _ _ _); [|done..].
      cbn in Hrun. by injection Hrun as <-.
    + rewrite exit_status_fmap.
      destruct (download_all _ _ _ _ _ _) as [saved|code|e] eqn:Hrun;
        [by left| |by right].
      by apply download_all_outcome in Hrun.
  - split; [|split].
    + rewrite fmap_returns, merge_all_returns_iff. split.
      * intros Hok. exists prog, arg, rest. split; [done|]. right. left. tauto.
      * intros (? & ? & ? & [= <- <- <-] & [[Hc _]|[?|[[Hc _]|Hc]]]);
          [congruence|tauto|congruence..].
    + intros done Hrun. exists prog, arg, rest. split; [done|].
      destruct (merge_all_stix_files _ _ _ _); [|done..].
      cbn in Hrun. by injection Hrun as <-.
    + rewrite exit_status_fmap.
      destruct (merge_all_stix_files _ _ _ _) as [result|code|e] eqn:Hrun;
        [by left| |by right].
      by apply merge_all_no_exit in Hrun.
  - split; [|split].
    + rewrite fmap_returns, extract_all_apts_returns_iff. split.
      * intros Hok. exists prog, arg, rest. split; [done|].
        right. right. left. tauto.
      * intros (? & ? & ? & [= <- <- <-] & [[Hc _]|[[Hc _]|[?|Hc]]]);
          [congruence..|tauto|congruence].
    + intros done Hrun. exists prog, arg, rest. split; [done|].
      destruct (extract_all_apts _ _ _ _ _); [|done..].
      cbn in Hrun. by injection Hrun as <-.
    + rewrite exit_status_fmap. apply extract_all_apts_exit_status.
  - split; [|split].
    + split.
      * intros _. exists prog, arg, rest. split; [done|]. by do 3 right.
      * intros _. by eexists.
    + intros done [= <-]. by exists prog, arg, rest.
    + by left.
  - split; [|split; [done|by right]].
    split; [by intros [? ?]|].
    intros (? & ? & ? & [= <- <- <-] & [[Hc _]|[[Hc _]|[[Hc _]|Hc]]]); done.
Qed.

End Commands.

Section CommandExamples.

Import Sample.

(** The merge scenario followed by a load of its output. *)
Lemma extraction_after_merge_sees_unique_ids_witness :
  Forall (λ o, getattr o "id" "" ≠ "") merged_corpus
  ∧ NoDup ((λ o, getattr o "id" "") <$> merged_corpus)
  ∧ ∀ apt_group obj,
      apt_group ∈ merged_corpus →
      obj ∈ assembled merged_corpus apt_group →
      obj ∈ unique_objects_of merged_corpus apt_group.
Proof.
  apply (extraction_after_merge_sees_unique_ids parse Bundle writable
           [file_a; canonical; file_b] "stix_full.json"
           [x_first; y_first; z_first] merged_doc
           [x_first; y_first; z_first] merged_corpus 0).
  - reflexivity.
  - reflexivity.
  - reflexivity.
  - repeat (constructor; [intros o Hk; vm_compute in Hk;
                          injection Hk as <-; reflexivity|]).
    constructor.
  - reflexivity.
Defined.

Example download_saves_last_segment :
  download_all url_path SampleNet.request true false (λ _, true) STIX_URL
  = Returned (Some ("enterprise-attack.json", "{}")).
Proof. reflexivity. Qed.

Lemma download_all_outcome_witness :
  download_all url_path SampleNet.request true false (λ _, true) STIX_URL
  = Returned (Some ("enterprise-attack.json", "{}"))
  ∧ download_all url_path SampleNet.no_network false true (λ _, true) STIX_URL
    = Returned None.
Proof.
  split.
  - destruct (download_all_outcome url_path SampleNet.request true false
                (λ _, true) STIX_URL) as (_ & Hreturned & _).
    apply Hreturned. split; [by left|]. right.
    exists "enterprise-attack.json", "{}".
    split; [reflexivity|]. split; [|done].
    split; [apply (bool_decide_unpack _); by vm_compute|].
    exists "/mitre-attack/attack-stix-data/master/enterprise-attack/".
    split; [reflexivity|]. right.
    by exists "/mitre-attack/attack-stix-data/master/enterprise-attack".
  - destruct (download_all_outcome url_path SampleNet.no_network false true
                (λ _, true) STIX_URL) as (_ & Hreturned & _).
    apply Hreturned. split; [by right|]. by left.
Defined.

Example main_ignores_case_and_further_arguments :
  main url_path SampleNet.request true false (λ _, true) parse Bundle writable
    true STIX_URL [file_a; canonical; file_b] "stix_full.json" (bundle_doc [])
    ["stix.py"; "MERGE"; "now"]
  = Returned (Merged (Rebundled [x_first; y_first; z_first]))
  ∧ main url_path SampleNet.request true false (λ _, true) parse Bundle
      writable true STIX_URL [file_a; canonical; file_b] "stix_full.json"
      (bundle_doc []) ["stix.py"; "update"]
    = SysExit 1.
Proof. split; reflexivity. Qed.

Lemma main_returns_iff_witness :
  (∃ done,
     main url_path SampleNet.request true false (λ _, true) parse Bundle
       writable true STIX_URL [file_a; canonical; file_b] "stix_full.json"
       (bundle_doc []) ["stix.py"; "MERGE"; "now"]
     = Returned done)
  ∧ ∃ prog arg rest,
      ["stix.py"; "MERGE"; "now"] = prog :: arg :: rest
      ∧ lower arg = "merge"
      ∧ merge_all_stix_files Bundle writable [file_a; canonical; file_b]
          "stix_full.json"
        = Returned (Rebundled [x_first; y_first; z_first]).
Proof.
  destruct (main_returns_iff url_path SampleNet.request true false
              (λ _, true) parse Bundle writable true STIX_URL
              [file_a; canonical; file_b] "stix_full.json" (bundle_doc [])
              ["stix.py"; "MERGE"; "now"]) as (Hiff & Hreturned & _).
  split.
  - apply Hiff. exists "stix.py", "MERGE", ["now"]. split; [reflexivity|].
    right. left. split; [reflexivity|]. split; [repeat constructor|].
    do 2 right. split; [vm_compute; lia|].
    split; [|split; reflexivity].
    repeat (constructor; [cbn; intros _; by eexists|]). constructor.
  - exact (Hreturned (Merged (Rebundled [x_first; y_first; z_first])) eq_refl).
Defined.

End CommandExamples.
